(** * Camera grab scripts: acquisition callback, frame queue, format
      negotiation and Bayer conversion

    A shallow embedding of the three scripts of the repository

    - [VmbPy.202503/asynchronous_grab_opencv_12bit_rgb_tiff.py]  (module [Tiff]),
    - [vimbax/asynchronous_grab_opencv_roi.py]                   (module [Roi]),
    - [synchronous_grab_dark_current.py]                         (module [DarkCurrent]),

    Python code that prints, exits or raises is embedded in a small
    writer/exit/exception monad [proc]: a computation yields the list of
    effects it performed and how it ended. *)

From stdpp Require Import base option list strings numbers pretty.

Open Scope Z_scope.

(** ** Effects: output trace, [sys.exit] and exceptions *)

(** The exception classes the scripts raise or catch. [ValueError] carries
    its message. *)
Inductive exn : Type :=
  | ValueError (msg : string)
  | IndexError
  | AttributeError
  | VmbFeatureError
  | VmbCameraError.

#[global] Instance exn_eq_dec : EqDecision exn.
Proof. solve_decision. Defined.

(** How a call ends: it returns a value, the interpreter exits through
    [sys.exit(code)], an exception propagates out of it, or it stays blocked
    inside a blocking library call. *)
Inductive outcome (A : Type) : Type :=
  | Return (a : A)
  | SysExit (code : Z)
  | Raise (e : exn)
  | Blocked.
Arguments Return {A} a.
Arguments SysExit {A} code.
Arguments Raise {A} e.
Arguments Blocked {A}.

(** A computation over effects of type [E]. *)
Definition proc (E A : Type) : Type := (list E * outcome A)%type.

Definition ret {E A} (a : A) : proc E A := ([], Return a).
Definition emit {E} (e : E) : proc E unit := ([e], Return tt).
Definition sys_exit {E A} (code : Z) : proc E A := ([], SysExit code).
Definition raise {E A} (e : exn) : proc E A := ([], Raise e).
Definition block {E A} : proc E A := ([], Blocked).

Definition bind {E A B} (m : proc E A) (k : A -> proc E B) : proc E B :=
  match m with
  | (tr, Return a) => let '(tr', r) := k a in (tr ++ tr', r)
  | (tr, SysExit c) => (tr, SysExit c)
  | (tr, Raise e) => (tr, Raise e)
  | (tr, Blocked) => (tr, Blocked)
  end.

(** [try: m except (e1, e2): h] for the handlers of the scripts, which all
    catch the pair [(AttributeError, VmbFeatureError)]. *)
Definition catches (e : exn) : bool :=
  match e with
  | AttributeError | VmbFeatureError => true
  | _ => false
  end.

Definition try_except {E A} (m : proc E A) (h : proc E A) : proc E A :=
  match m with
  | (tr, Raise e) =>
      if catches e then let '(tr', r) := h in (tr ++ tr', r) else (tr, Raise e)
  | _ => m
  end.

Declare Scope proc_scope.
Delimit Scope proc_scope with proc.
Notation "x <- m ;; k" := (bind m (fun x => k))
  (at level 100, m at next level, right associativity) : proc_scope.
Notation "m ;;; k" := (bind m (fun _ => k))
  (at level 100, right associativity) : proc_scope.
Open Scope proc_scope.

Definition trace {E A} (m : proc E A) : list E := fst m.
Definition result {E A} (m : proc E A) : outcome A := snd m.

(** ** Data model shared by the scripts *)

(** The members of the driver library's [PixelFormat] enumeration that the
    scripts and their documentation name; every other member is
    [OtherFormat] with its numeric code. *)
Inductive PixelFormat : Type :=
  | Mono8 | Mono10 | Mono12 | Mono16
  | BayerRG8 | BayerRG12
  | Rgb8 | Bgr8
  | OtherFormat (code : N).

#[global] Instance PixelFormat_eq_dec : EqDecision PixelFormat.
Proof. solve_decision. Defined.

(** [FrameStatus] of the driver library. *)
Inductive FrameStatus : Type := Complete | Incomplete | TooSmall | Invalid.

#[global] Instance FrameStatus_eq_dec : EqDecision FrameStatus.
Proof. solve_decision. Defined.

#[global] Instance byte_eq_dec : EqDecision Byte.byte := Byte.byte_eq_dec.

(** A frame as the callback sees it through its getters. *)
Record Frame : Type := mkFrame {
  get_id : Z;
  get_status : FrameStatus;
  get_pixel_format : PixelFormat;
  get_width : nat;
  get_height : nat;
  get_buffer : list Byte.byte
}.

#[global] Instance Frame_eq_dec : EqDecision Frame.
Proof. solve_decision. Defined.

(** [frame.get_buffer_size()] is the byte length of the buffer. *)
Definition get_buffer_size (frame : Frame) : nat := length (get_buffer frame).

(** All frames are displayed in this format. *)
Definition opencv_display_format : PixelFormat := Bgr8.

Definition ENTER_KEY_CODE : Z := 13.

(** ** The numpy operations of the Bayer conversion path *)
Module Np.

(** A two-dimensional [uint16] array: its shape and its elements in
    row-major order. *)
Record ndarray : Type := mkArray {
  rows : nat;
  cols : nat;
  flat : list Z
}.

Definition frombuffer_error : string :=
  "buffer size must be a multiple of element size".

(** Little-endian decoding of byte pairs. *)
Fixpoint decode_uint16 (buf : list Byte.byte) : list Z :=
  match buf with
  | lo :: hi :: rest =>
      (Z.of_N (Byte.to_N lo) + 256 * Z.of_N (Byte.to_N hi)) :: decode_uint16 rest
  | _ => []
  end.

(** [np.frombuffer(buf, dtype=np.uint16)]: a [ValueError] unless the byte
    length is a multiple of the two-byte element size. *)
Definition frombuffer {E} (buf : list Byte.byte) : proc E (list Z) :=
  if (length buf mod 2 =? 0)%nat then ret (decode_uint16 buf)
  else raise (ValueError frombuffer_error).

(** [a.reshape((height, width))] of a one-dimensional array. *)
Definition reshape {E} (a : list Z) (height width : nat) : proc E ndarray :=
  if (length a =? height * width)%nat then ret (mkArray height width a)
  else raise (ValueError "cannot reshape array").

(** [a[i, j]] for non-negative [i], [j]. *)
Definition getitem {E} (a : ndarray) (i j : nat) : proc E Z :=
  if (i <? rows a)%nat && (j <? cols a)%nat then
    match flat a !! (i * cols a + j)%nat with
    | Some v => ret v
    | None => raise IndexError
    end
  else raise IndexError.

(** [(a << 4).astype(np.uint16)]: the shift is computed in [uint16] and
    wraps modulo [2^16]. *)
Definition shl4_u16 (v : Z) : Z := Z.land (Z.shiftl v 4) 65535.

Definition lshift4 (a : ndarray) : ndarray :=
  mkArray (rows a) (cols a) (map shl4_u16 (flat a)).

(** [a.tolist()]: the rows of the array. *)
Fixpoint chunks (n : nat) (w : nat) (l : list Z) : list (list Z) :=
  match n with
  | O => []
  | S n' => take w l :: chunks n' w (drop w l)
  end.

Definition tolist (a : ndarray) : list (list Z) := chunks (rows a) (cols a) (flat a).

End Np.

(** ** The camera and the effects of the main thread *)

(** A value passed to a feature's [set]. [VFloat z] is the float whose value
    is the integer [z] (the scripts only pass such floats). *)
Inductive value : Type :=
  | VStr (s : string)
  | VInt (z : Z)
  | VFloat (z : Z).

(** The operations on camera features that can fail because the camera
    model lacks or refuses a feature. *)
Inductive op : Type :=
  | GetAttr (name : string)
  | GetFeatureByName (name : string)
  | FeatureGet (name : string)
  | FeatureSet (name : string) (v : value)
  | FeatureRun (name : string).

(** The exception of a failed operation: attribute access raises
    [AttributeError], the feature calls raise [VmbFeatureError]. *)
Definition op_error (o : op) : exn :=
  match o with
  | GetAttr _ => AttributeError
  | _ => VmbFeatureError
  end.

(** A camera: its name, its pixel formats, which feature operations it
    accepts, and how many times [GVSPAdjustPacketSize.is_done()] answers
    [False] before it answers [True]. *)
Record Camera : Type := mkCamera {
  get_name : string;
  get_pixel_formats : list PixelFormat;
  supports : op -> bool;
  adjust_polls : nat
}.

Inductive effect : Type :=
  | Print (text : string)
  | PrintFormats (label : string) (fmts : list PixelFormat)
  | Did (o : op)
  | IsDone (answer : bool)
  | SetPixelFormat (fmt : PixelFormat)
  | StartStreaming.

Definition feature_op (cam : Camera) (o : op) : proc effect unit :=
  if supports cam o then emit (Did o) else raise (op_error o).

(** [while not feature.is_done(): pass] *)
Fixpoint wait_done (polls : nat) : proc effect unit :=
  match polls with
  | O => emit (IsDone true)
  | S n => emit (IsDone false) ;;; wait_done n
  end.

(** [t[i]] on a tuple or list, for a non-negative [i]. *)
Definition tuple_get {E A} (t : list A) (i : nat) : proc E A :=
  match t !! i with
  | Some x => ret x
  | None => raise IndexError
  end.

(** ** Command line and camera selection

    [print_usage], [abort], [parse_args] and [get_camera] are textually the
    same in [Tiff] and [Roi]. *)
Module Cli.

(** A line written to standard output by one [print] call. *)
Abbreviation line := effect.

Definition print (s : string) : proc line unit := emit (Print s).

Definition print_usage : proc line unit :=
  print "Usage:" ;;;
  print "    python asynchronous_grab_opencv.py [camera_id]" ;;;
  print "    python asynchronous_grab_opencv.py [/h] [-h]" ;;;
  print "" ;;;
  print "Parameters:" ;;;
  print "    camera_id   ID of the camera to use (using first camera if not specified)" ;;;
  print "".

(** The newline inside [reason + '\n'] is the character 10. *)
Definition newline : string := String (Ascii.ascii_of_nat 10) EmptyString.

Definition abort {A} (reason : string) (return_code : Z) (usage : bool)
  : proc line A :=
  print (reason +:+ newline) ;;;
  (if usage then print_usage else ret tt) ;;;
  sys_exit return_code.

(** [arg in ('/h', '-h')] *)
Definition is_help (arg : string) : bool :=
  bool_decide (arg = "/h") || bool_decide (arg = "-h").

(** The [for arg in args] loop of [parse_args]. *)
Fixpoint scan_help (args : list string) : proc line unit :=
  match args with
  | [] => ret tt
  | arg :: rest =>
      if is_help arg then print_usage ;;; sys_exit 0 else scan_help rest
  end.

(** [args] is [sys.argv[1:]]. *)
Definition parse_args (args : list string) : proc line (option string) :=
  let argc := length args in
  scan_help args ;;;
  (if (1 <? argc)%nat
   then abort "Invalid number of arguments. Abort." 2 true
   else ret tt) ;;;
  ret (if (argc =? 0)%nat then None else args !! 0%nat).

(** Python truthiness of an [Optional[str]]: [None] and [''] are false. *)
Definition truthy (camera_id : option string) : bool :=
  match camera_id with
  | None => false
  | Some s => negb (bool_decide (s = ""))
  end.

Section Camera.
(** The driver: the enumeration [vmb.get_all_cameras()] and the lookup
    [vmb.get_camera_by_id], which raises [VmbCameraError] (here: [None])
    for an unknown identifier. *)
Variable get_all_cameras : list Camera.
Variable get_camera_by_id : string -> option Camera.

Definition get_camera (camera_id : option string) : proc line Camera :=
  if truthy camera_id then
    let id := default "" camera_id in
    match get_camera_by_id id with
    | Some cam => ret cam
    | None => abort ("Failed to access Camera '" +:+ id +:+ "'. Abort.") 1 false
    end
  else
    let cams := get_all_cameras in
    (if bool_decide (cams = []) then abort "No Cameras accessible. Abort." 1 false
     else ret tt) ;;;
    tuple_get cams 0.

(** The two calls of [main] that decide the camera:
    [cam_id = parse_args()], then [get_camera(cam_id)]. *)
Definition main_get_camera (args : list string) : proc line Camera :=
  cam_id <- parse_args args ;;
  get_camera cam_id.
End Camera.

End Cli.

(** ** [asynchronous_grab_opencv_12bit_rgb_tiff.py] *)
Module Tiff.

Definition setup_camera (cam : Camera) : proc effect unit :=
  try_except
    (feature_op cam (GetAttr "GVSPAdjustPacketSize") ;;;
     feature_op cam (FeatureRun "GVSPAdjustPacketSize") ;;;
     wait_done (adjust_polls cam))
    (ret tt).

Section Formats.
(** The tables and functions of the driver library used by the
    negotiation. *)
Variable COLOR_PIXEL_FORMATS MONO_PIXEL_FORMATS : list PixelFormat.
Variable intersect_pixel_formats :
  list PixelFormat -> list PixelFormat -> list PixelFormat.
Variable get_convertible_formats : PixelFormat -> list PixelFormat.

Definition convertible (f : PixelFormat) : bool :=
  bool_decide (opencv_display_format ∈ get_convertible_formats f).

Definition setup_pixel_format (cam : Camera) : proc effect unit :=
  let cam_formats := get_pixel_formats cam in
  let cam_color_formats := intersect_pixel_formats cam_formats COLOR_PIXEL_FORMATS in
  let convertible_color_formats := List.filter convertible cam_color_formats in
  let cam_mono_formats := intersect_pixel_formats cam_formats MONO_PIXEL_FORMATS in
  let convertible_mono_formats := List.filter convertible cam_mono_formats in
  if bool_decide (opencv_display_format ∈ cam_formats) then
    emit (SetPixelFormat opencv_display_format)
  else if negb (bool_decide (convertible_color_formats = [])) then
    f <- tuple_get convertible_color_formats 0 ;;
    emit (SetPixelFormat f)
  else if negb (bool_decide (convertible_mono_formats = [])) then
    f <- tuple_get convertible_mono_formats 0 ;;
    emit (SetPixelFormat f)
  else
    Cli.abort "Camera does not support an OpenCV compatible format. Abort." 1 false.
End Formats.

Section Driver.
(** The driver and OpenCV calls of the callback:
    [frame.convert_pixel_format(fmt)] ([None]: it raises [ValueError]),
    [frame.as_opencv_image()] ([None]: it raises [ValueError]) and
    [cv2.cvtColor(a, cv2.COLOR_BAYER_RG2RGB_EA)]. *)
Variable Image : Type.
Variable convert_pixel_format : Frame -> PixelFormat -> option Frame.
Variable as_opencv_image : Frame -> option Image.
Variable cvtColor_BAYER_RG2RGB_EA : Np.ndarray -> Image.

(** What the callback does to the outside world. *)
Inductive event : Type :=
  | ShutdownEventSet
  | PrintAcquired (frame : Frame)
  | PrintOrigin (p1 p2 p3 : Z)
  | PrintTiff (p1 p2 p3 : Z)
  | CvtColor (bayer : Np.ndarray)
  | Imwrite (path : string) (img : Image)
  | PrintSaved (path : string)
  | Imshow (img : Image)
  | QueueFrame (frame : Frame).

(** The two f-strings of the size checks. *)
Definition size_mismatch_msg (expected actual : nat) : string :=
  "原始数据大小与指定的宽度和高度不匹配。期望 " +:+ pretty expected
    +:+ "，实际 " +:+ pretty actual.

Definition conversion_error : string :=
  "Current PixelFormat can't be converted into given format.".
Definition opencv_error : string :=
  "Current Format can't be converted to a OpenCV compatible image.".

Definition convert (frame : Frame) (fmt : PixelFormat) : proc event Frame :=
  match convert_pixel_format frame fmt with
  | Some display => ret display
  | None => raise (ValueError conversion_error)
  end.

Definition opencv_image (frame : Frame) : proc event Image :=
  match as_opencv_image frame with
  | Some img => ret img
  | None => raise (ValueError opencv_error)
  end.

(** The [else] branch of the format test: the display copy, then the
    BayerRG12 to TIFF conversion. It yields [display]. *)
Definition bayer_to_tiff (frame : Frame) : proc event Frame :=
  display <- convert frame opencv_display_format ;;
  let height := get_height frame in
  let width := get_width frame in
  bayer_raw_data <- Np.frombuffer (get_buffer frame) ;;
  (if negb (get_buffer_size frame =? width * height * 2)%nat
   then raise (ValueError
                 (size_mismatch_msg (width * height * 2) (get_buffer_size frame)))
   else ret tt) ;;;
  (if negb (length bayer_raw_data =? width * height)%nat
   then raise (ValueError
                 (size_mismatch_msg (width * height) (length bayer_raw_data)))
   else ret tt) ;;;
  bayer_image_16bit <- Np.reshape bayer_raw_data height width ;;
  pixel_value1 <- Np.getitem bayer_image_16bit 0 0 ;;
  pixel_value2 <- Np.getitem bayer_image_16bit 100 100 ;;
  pixel_value3 <- Np.getitem bayer_image_16bit 200 200 ;;
  emit (PrintOrigin pixel_value1 pixel_value2 pixel_value3) ;;;
  let bayer_image_16bit := Np.lshift4 bayer_image_16bit in
  pixel_value1 <- Np.getitem bayer_image_16bit 0 0 ;;
  pixel_value2 <- Np.getitem bayer_image_16bit 100 100 ;;
  pixel_value3 <- Np.getitem bayer_image_16bit 200 200 ;;
  emit (PrintTiff pixel_value1 pixel_value2 pixel_value3) ;;;
  emit (CvtColor bayer_image_16bit) ;;;
  let rgb_image := cvtColor_BAYER_RG2RGB_EA bayer_image_16bit in
  let output_tiff_path := "output_" +:+ pretty (get_id frame) +:+ ".tiff" in
  emit (Imwrite output_tiff_path rgb_image) ;;;
  emit (PrintSaved output_tiff_path) ;;;
  ret display.

(** [Handler.__call__]; [key] is what [cv2.waitKey(1)] returned. *)
Definition Handler_call (key : Z) (frame : Frame) : proc event unit :=
  if key =? ENTER_KEY_CODE then
    emit ShutdownEventSet
  else
    (if bool_decide (get_status frame = Complete) then
       emit (PrintAcquired frame) ;;;
       display <- (if bool_decide (get_pixel_format frame = opencv_display_format)
                   then ret frame
                   else bayer_to_tiff frame) ;;
       img <- opencv_image display ;;
       emit (Imshow img)
     else ret tt) ;;;
    emit (QueueFrame frame).
End Driver.

Arguments ShutdownEventSet {Image}.
Arguments PrintAcquired {Image} frame.
Arguments PrintOrigin {Image} p1 p2 p3.
Arguments PrintTiff {Image} p1 p2 p3.
Arguments CvtColor {Image} bayer.
Arguments Imwrite {Image} path img.
Arguments PrintSaved {Image} path.
Arguments Imshow {Image} img.
Arguments QueueFrame {Image} frame.

(** Number of [cam.queue_frame(frame)] calls in a trace. *)
Definition is_queue_frame {Image} (frame : Frame) (e : event Image) : bool :=
  match e with
  | QueueFrame f => bool_decide (f = frame)
  | _ => false
  end.

Definition queue_frame_count {Image} (frame : Frame) (tr : list (event Image)) : nat :=
  length (List.filter (is_queue_frame frame) tr).

End Tiff.

(** ** [queue.Queue] of the Python library *)
Module PyQueue.

Section Queue.
Context {A : Type}.

(** [maxsize] and the underlying deque, head first. *)
Record Queue : Type := mkQueue {
  maxsize : Z;
  items : list A
}.

(** [Queue(maxsize)] *)
Definition new (maxsize : Z) : Queue := mkQueue maxsize [].

Definition qsize (q : Queue) : nat := length (items q).

(** [0 < self.maxsize <= self._qsize()] *)
Definition full (q : Queue) : bool :=
  (0 <? maxsize q) && (maxsize q <=? Z.of_nat (qsize q)).

(** [q.put(item, True)]: [None] while the caller has to wait for a free
    slot. *)
Definition put (q : Queue) (item : A) : option Queue :=
  if full q then None else Some (mkQueue (maxsize q) (items q ++ [item])).

(** [q.get(True)]: [None] while the caller has to wait for an item. *)
Definition get (q : Queue) : option (A * Queue) :=
  match items q with
  | [] => None
  | item :: rest => Some (item, mkQueue (maxsize q) rest)
  end.

(** The calls of all threads on one queue, listed in the order in which
    they return. A [put] on the full queue and a [get] on the empty queue
    do not return at that point: the caller waits, and the call returns
    later, behind the call of another thread that made room or brought an
    item. So a list in which such a call stands too early is not an order
    in which the calls can return ([None]); no call is ever dropped. *)
Inductive call : Type := Put (item : A) | Get.

(** The queue, and the items the [get] calls have returned, in order. *)
Record history : Type := mkHistory {
  queue : Queue;
  popped : list A
}.

Definition exec (h : history) (c : call) : option history :=
  match c with
  | Put item =>
      match put (queue h) item with
      | Some q => Some (mkHistory q (popped h))
      | None => None
      end
  | Get =>
      match get (queue h) with
      | Some (item, q) => Some (mkHistory q (popped h ++ [item]))
      | None => None
      end
  end.

Fixpoint run_from (h : history) (calls : list call) : option history :=
  match calls with
  | [] => Some h
  | c :: rest =>
      match exec h c with
      | Some h' => run_from h' rest
      | None => None
      end
  end.

Definition run (maxsize : Z) (calls : list call) : option history :=
  run_from (mkHistory (new maxsize) []) calls.
End Queue.

Arguments Queue A : clear implicits.
Arguments call A : clear implicits.
Arguments history A : clear implicits.

End PyQueue.

(** ** [asynchronous_grab_opencv_roi.py] *)
Module Roi.

Definition setup_camera (cam : Camera) : proc effect unit :=
  try_except
    (feature_op cam (GetAttr "ExposureAuto") ;;;
     feature_op cam (FeatureSet "ExposureAuto" (VStr "Off")))
    (emit (Print "ERROR1: <class 'vmbpy.error.VmbFeatureError'>")) ;;;
  try_except
    (feature_op cam (GetFeatureByName "ExposureTime") ;;;
     feature_op cam (FeatureGet "ExposureTime") ;;;
     emit (Print "origin exposure time:") ;;;
     feature_op cam (FeatureSet "ExposureTime" (VInt 640)) ;;;
     feature_op cam (FeatureGet "ExposureTime") ;;;
     emit (Print "new exposure time:") ;;;
     feature_op cam (GetFeatureByName "Width") ;;;
     feature_op cam (GetFeatureByName "Height") ;;;
     feature_op cam (FeatureSet "Width" (VInt 64)) ;;;
     feature_op cam (FeatureSet "Height" (VInt 64)) ;;;
     feature_op cam (FeatureGet "Width") ;;;
     feature_op cam (FeatureGet "Height") ;;;
     emit (Print "new width: new height:") ;;;
     feature_op cam (GetFeatureByName "OffsetX") ;;;
     feature_op cam (GetFeatureByName "OffsetY") ;;;
     feature_op cam (FeatureSet "OffsetX" (VInt 600)) ;;;
     feature_op cam (FeatureSet "OffsetY" (VInt 500)) ;;;
     feature_op cam (FeatureGet "OffsetX") ;;;
     feature_op cam (FeatureGet "OffsetY") ;;;
     emit (Print "new offsetx: new offsety:") ;;;
     feature_op cam (GetFeatureByName "AcquisitionFrameRate") ;;;
     feature_op cam (FeatureSet "AcquisitionFrameRate" (VFloat 11)))
    (emit (Print "ERROR2: <class 'vmbpy.error.VmbFeatureError'>")) ;;;
  try_except
    (feature_op cam (GetAttr "GVSPAdjustPacketSize") ;;;
     feature_op cam (FeatureRun "GVSPAdjustPacketSize") ;;;
     wait_done (adjust_polls cam))
    (ret tt).

Section Formats.
Variable COLOR_PIXEL_FORMATS MONO_PIXEL_FORMATS : list PixelFormat.
Variable intersect_pixel_formats :
  list PixelFormat -> list PixelFormat -> list PixelFormat.
Variable get_convertible_formats : PixelFormat -> list PixelFormat.

Definition convertible (f : PixelFormat) : bool :=
  bool_decide (opencv_display_format ∈ get_convertible_formats f).

Definition setup_pixel_format (cam : Camera) : proc effect unit :=
  let cam_formats := get_pixel_formats cam in
  let cam_color_formats := intersect_pixel_formats cam_formats COLOR_PIXEL_FORMATS in
  let convertible_color_formats := List.filter convertible cam_color_formats in
  let cam_mono_formats := intersect_pixel_formats cam_formats MONO_PIXEL_FORMATS in
  let convertible_mono_formats := List.filter convertible cam_mono_formats in
  if bool_decide (opencv_display_format ∈ cam_formats) then
    emit (SetPixelFormat opencv_display_format) ;;;
    emit (PrintFormats "set pixel format #1:" [opencv_display_format])
  else if negb (bool_decide (convertible_color_formats = [])) then
    f <- tuple_get convertible_color_formats 0 ;;
    emit (SetPixelFormat f) ;;;
    f <- tuple_get convertible_color_formats 0 ;;
    emit (PrintFormats "set pixel format #2:" [f])
  else if negb (bool_decide (convertible_mono_formats = [])) then
    f <- tuple_get convertible_mono_formats 2 ;;
    emit (SetPixelFormat f) ;;;
    f0 <- tuple_get convertible_mono_formats 0 ;;
    emit (PrintFormats "set pixel format #3:" [f0]) ;;;
    f1 <- tuple_get convertible_mono_formats 1 ;;
    emit (PrintFormats "set pixel format #3:" [f1]) ;;;
    f2 <- tuple_get convertible_mono_formats 2 ;;
    emit (PrintFormats "set pixel format #3:" [f2]) ;;;
    emit (PrintFormats "set pixel format #3:" convertible_mono_formats) ;;;
    emit (PrintFormats "set pixel format #3: current value:" [f])
  else
    Cli.abort "Camera does not support an OpenCV compatible format. Abort." 1 false.

(** [main] from the pixel format negotiation to the start of the
    stream. *)
Definition main_start (cam : Camera) : proc effect unit :=
  setup_camera cam ;;;
  setup_pixel_format cam ;;;
  emit StartStreaming.
End Formats.

(** *** The callback *)

Record Handler : Type := mkHandler {
  display_queue : PyQueue.Queue Frame
}.

(** [Handler.__init__] *)
Definition Handler_init : Handler := mkHandler (PyQueue.new 10).

(** [Handler.get_image]: [None] while the call waits for a frame. *)
Definition Handler_get_image (self : Handler) : option (Frame * Handler) :=
  match PyQueue.get (display_queue self) with
  | Some (frame, q) => Some (frame, mkHandler q)
  | None => None
  end.

Inductive cb_event : Type :=
  | PrintAcquired (frame : Frame)
  | QueueFrame (frame : Frame).

(** [Handler.__call__]; it yields the handler with the updated queue. *)
Definition Handler_call (self : Handler) (frame : Frame) : proc cb_event Handler :=
  self' <- (if bool_decide (get_status frame = Complete) then
              emit (PrintAcquired frame) ;;;
              let display := frame in
              match PyQueue.put (display_queue self) display with
              | Some q => ret (mkHandler q)
              | None => block
              end
            else ret self) ;;
  emit (QueueFrame frame) ;;;
  ret self'.

Definition is_queue_frame (frame : Frame) (e : cb_event) : bool :=
  match e with
  | QueueFrame f => bool_decide (f = frame)
  | _ => false
  end.

Definition queue_frame_count (frame : Frame) (tr : list cb_event) : nat :=
  length (List.filter (is_queue_frame frame) tr).

(** *** The loop of [main] *)
Section Loop.
(** Driver and numpy calls of the loop body: [convert_pixel_format] and
    [as_opencv_image] raise [ValueError] where they are [None]. *)
Variable Array Number : Type.
Variable convert_pixel_format : Frame -> PixelFormat -> option Frame.
Variable as_opencv_image : Frame -> option Array.
Variable as_numpy_ndarray : Frame -> Array.
Variable np_mean np_sum : Array -> Number.

Inductive loop_event : Type :=
  | PrintArray (a : Array)
  | PrintInfo (buffer_size : nat) (mean_value total_sum : Number)
  | FileWrite (mean_value total_sum : Number)
  | Imshow (img : Array)
  | DestroyWindow
  | FileClose
  | StopStreaming.

(** The loop body after [frame = handler.get_image()]. *)
Definition process_frame (frame : Frame) : proc loop_event unit :=
  display <- (if bool_decide (get_pixel_format frame = opencv_display_format)
              then ret frame
              else match convert_pixel_format frame opencv_display_format with
                   | Some d => ret d
                   | None => raise (ValueError Tiff.conversion_error)
                   end) ;;
  img_opencv <- match as_opencv_image frame with
                | Some img => ret img
                | None => raise (ValueError Tiff.opencv_error)
                end ;;
  let img_numpy := as_numpy_ndarray frame in
  emit (PrintArray img_numpy) ;;;
  let mean_value := np_mean img_numpy in
  let total_sum := np_sum img_numpy in
  emit (PrintInfo (get_buffer_size frame) mean_value total_sum) ;;;
  emit (FileWrite mean_value total_sum) ;;;
  emit (Imshow img_opencv).

(** Where the main thread is: about to call [cv2.waitKey], inside
    [handler.get_image()], past the loop after [break], or past it
    through an exception. *)
Inductive location : Type :=
  | AtWaitKey
  | AtGetImage
  | Stopped
  | Crashed (e : exn).

(** The capture thread and the main thread share the handler. [taken]
    lists the frames [get_image] has returned, [callback_log] what the
    callback did, [main_log] what the loop did. *)
Record state : Type := mkState {
  handler : Handler;
  loc : location;
  taken : list Frame;
  callback_log : list cb_event;
  main_log : list loop_event
}.

(** After [cam.start_streaming(handler=handler, buffer_count=10)]. *)
Definition start : state := mkState Handler_init AtWaitKey [] [] [].

(** One atomic move of either thread: the driver delivers a frame and the
    callback runs to its end; [cv2.waitKey(1)] returns [key]; or
    [get_image] returns and the rest of the body runs. *)
Inductive label : Type :=
  | Deliver (frame : Frame)
  | WaitKey (key : Z)
  | GetImage.

Definition streaming (l : location) : bool :=
  match l with
  | AtWaitKey | AtGetImage => true
  | _ => false
  end.

(** The [finally] clause. *)
Definition finally : list loop_event := [FileClose; StopStreaming].

(** [None]: the move cannot happen in this state (the thread is elsewhere
    or is blocked). *)
Definition step (s : state) (l : label) : option state :=
  match l with
  | Deliver frame =>
      if streaming (loc s) then
        match Handler_call (handler s) frame with
        | (tr, Return h) =>
            Some (mkState h (loc s) (taken s) (callback_log s ++ tr) (main_log s))
        | _ => None
        end
      else None
  | WaitKey key =>
      match loc s with
      | AtWaitKey =>
          if key =? ENTER_KEY_CODE then
            Some (mkState (handler s) Stopped (taken s) (callback_log s)
                    (main_log s ++ DestroyWindow :: finally))
          else
            Some (mkState (handler s) AtGetImage (taken s) (callback_log s)
                    (main_log s))
      | _ => None
      end
  | GetImage =>
      match loc s with
      | AtGetImage =>
          match Handler_get_image (handler s) with
          | Some (frame, h) =>
              match process_frame frame with
              | (tr, Return _) =>
                  Some (mkState h AtWaitKey (taken s ++ [frame]) (callback_log s)
                          (main_log s ++ tr))
              | (tr, Raise e) =>
                  Some (mkState h (Crashed e) (taken s ++ [frame]) (callback_log s)
                          (main_log s ++ tr ++ finally))
              | (tr, _) => None
              end
          | None => None
          end
      | _ => None
      end
  end.

(** A schedule of moves. *)
Fixpoint steps (s : state) (ls : list label) : option state :=
  match ls with
  | [] => Some s
  | l :: ls' =>
      match step s l with
      | Some s' => steps s' ls'
      | None => None
      end
  end.

Definition is_deliver (l : label) : bool :=
  match l with
  | Deliver _ => true
  | _ => false
  end.

(** What the loop showed and logged. *)
Definition displayed (tr : list loop_event) : list Array :=
  omap (fun e => match e with Imshow img => Some img | _ => None end) tr.

Definition logged (tr : list loop_event) : list (Number * Number) :=
  omap (fun e => match e with FileWrite m t => Some (m, t) | _ => None end) tr.
End Loop.

Arguments PrintArray {Array Number} a.
Arguments PrintInfo {Array Number} buffer_size mean_value total_sum.
Arguments FileWrite {Array Number} mean_value total_sum.
Arguments Imshow {Array Number} img.
Arguments DestroyWindow {Array Number}.
Arguments FileClose {Array Number}.
Arguments StopStreaming {Array Number}.
Arguments mkState {Array Number} handler loc taken callback_log main_log.
Arguments handler {Array Number} s.
Arguments loc {Array Number} s.
Arguments taken {Array Number} s.
Arguments callback_log {Array Number} s.
Arguments main_log {Array Number} s.
Arguments start {Array Number}.
Arguments finally {Array Number}.
Arguments displayed {Array Number} tr.
Arguments logged {Array Number} tr.

End Roi.

(** ** [synchronous_grab_dark_current.py] *)
Module DarkCurrent.

Definition setup_camera (cam : Camera) : proc effect unit :=
  try_except
    (feature_op cam (GetAttr "GVSPAdjustPacketSize") ;;;
     feature_op cam (FeatureRun "GVSPAdjustPacketSize") ;;;
     wait_done (adjust_polls cam))
    (ret tt).



(** Exposure values of [main]. *)
Definition expArray : list Z :=
  [1; 10; 20; 50; 75; 100; 125; 150; 175; 200;
   300; 350; 400; 500; 600; 700; 800; 900; 1000; 1250;
   1500; 1700; 1800; 1900; 2000;
   2500; 3000; 3500; 4000; 4500;
   5000; 5500; 6000; 6500; 7000;
   7500; 8000; 8500; 9000; 9500; 9900].

(** [l[25:]] *)
Definition from_25 {A} (l : list A) : list A := drop 25 l.

Section Acquisition.
(** The driver and numpy calls of the acquisition loop. The [i]-th call of
    [cam.get_frame(timeout)] yields a frame or raises the exception the
    driver picks (a timeout, for one). *)
Variable Array Number : Type.
Variable get_frame : nat -> exn + Frame.
Variable as_numpy_ndarray : Frame -> Array.
Variable np_average : Array -> Number.

(** The [for exp in expArray] loop; [i] is the step index and
    [expAvgVal] the list of averages, both as they stand before the
    remaining exposures [exps]. *)
Fixpoint acquire (cam : Camera) (exps : list Z) (i : nat) (expAvgVal : list Number)
  : proc effect (nat * list Number) :=
  match exps with
  | [] => ret (i, expAvgVal)
  | exp :: rest =>
      let i := S i in
      feature_op cam (GetFeatureByName "ExposureTime") ;;;
      feature_op cam (FeatureSet "ExposureTime" (VFloat (exp * 1000))) ;;;
      frame <- match get_frame i with
               | inl e => raise e
               | inr frame => ret frame
               end ;;
      let img := as_numpy_ndarray frame in
      let a := np_average img in
      let expAvgVal := expAvgVal ++ [a] in
      feature_op cam (FeatureGet "ExposureTime") ;;;
      emit (Print "Got Frame") ;;;
      acquire cam rest i expAvgVal
  end.

(** [main] from the loop on: the averages of all steps, then the points
    handed to [polyfit]. [x] is [expSeconds[25:]], the exposures divided by
    1000, kept here by the integer before the division; [y] is
    [expAvgVal[25:]]. *)
Definition main_acquire (cam : Camera) : proc effect (list Z * list Number) :=
  let x := from_25 expArray in
  r <- acquire cam expArray 0 [] ;;
  let expAvgVal := snd r in
  let y := from_25 expAvgVal in
  ret (x, y).
End Acquisition.

End DarkCurrent.

(** * Properties *)

(** ** The monad *)

Lemma bind_return {E A B} (tr : list E) (a : A) (k : A -> proc E B) :
  bind (tr, Return a) k = (tr ++ trace (k a), result (k a)).
Proof. unfold bind, trace, result. destruct (k a); reflexivity. Qed.

Lemma result_bind {E A B} (m : proc E A) (k : A -> proc E B) :
  result (bind m k) =
  match result m with
  | Return a => result (k a)
  | SysExit c => SysExit c
  | Raise e => Raise e
  | Blocked => Blocked
  end.
Proof.
  destruct m as [tr [a| | |]]; simpl; try reflexivity.
  destruct (k a); reflexivity.
Qed.

Lemma trace_bind {E A B} (m : proc E A) (k : A -> proc E B) :
  trace (bind m k) =
  match result m with
  | Return a => trace m ++ trace (k a)
  | _ => trace m
  end.
Proof.
  destruct m as [tr [a| | |]]; simpl; try reflexivity.
  destruct (k a); reflexivity.
Qed.

(** Traces whose effects all satisfy [P]. *)
Lemma Forall_trace_bind {E A B} (P : E -> Prop) (m : proc E A) (k : A -> proc E B) :
  Forall P (trace m) -> (forall a, Forall P (trace (k a))) ->
  Forall P (trace (bind m k)).
Proof.
  intros Hm Hk. rewrite trace_bind. destruct (result m); try assumption.
  apply Forall_app. split; [assumption | apply Hk].
Qed.

Lemma Forall_trace_try {E A} (P : E -> Prop) (m h : proc E A) :
  Forall P (trace m) -> Forall P (trace h) -> Forall P (trace (try_except m h)).
Proof.
  unfold try_except. destruct m as [tr [a| |e|]]; simpl; try tauto.
  intros Hm Hh. destruct (catches e); [|assumption].
  destruct h as [tr' r]. simpl in *. apply Forall_app. split; assumption.
Qed.

(** ** Command line *)
Module CliFacts.
Import Cli.

Definition usage_lines : list effect := trace print_usage.

Lemma print_usage_eq : print_usage = (usage_lines, Return tt).
Proof. reflexivity. Qed.

Lemma is_help_iff (arg : string) :
  is_help arg = true <-> arg = "/h" \/ arg = "-h".
Proof.
  unfold is_help. rewrite orb_true_iff, !bool_decide_eq_true. reflexivity.
Qed.

(** The scan stops at the first help flag, wherever it is. *)
Lemma scan_help_found (args : list string) :
  (exists arg, arg ∈ args /\ (arg = "/h" \/ arg = "-h")) ->
  scan_help args = (usage_lines, SysExit 0).
Proof.
  intros (arg & Hin & Hh). induction args as [|a rest IH]; simpl.
  - inversion Hin.
  - destruct (is_help a) eqn:Ha; [reflexivity|].
    apply IH. inversion Hin; subst; [|assumption].
    apply is_help_iff in Hh. congruence.
Qed.

Lemma scan_help_none (args : list string) :
  (forall arg, arg ∈ args -> arg <> "/h" /\ arg <> "-h") ->
  scan_help args = ([], Return tt).
Proof.
  induction args as [|a rest IH]; intros Hno; simpl; [reflexivity|].
  destruct (is_help a) eqn:Ha.
  - apply is_help_iff in Ha. destruct (Hno a) as [H1 H2]; [left|]. tauto.
  - apply IH. intros arg Hin. apply Hno. right. exact Hin.
Qed.

Lemma parse_args_help (args : list string) :
  (exists arg, arg ∈ args /\ (arg = "/h" \/ arg = "-h")) ->
  parse_args args = (usage_lines, SysExit 0).
Proof.
  intros H. unfold parse_args. rewrite (scan_help_found args H). reflexivity.
Qed.

Definition invalid_number : effect :=
  Print ("Invalid number of arguments. Abort." +:+ newline).

Lemma parse_args_too_many (args : list string) :
  (1 < length args)%nat ->
  (forall arg, arg ∈ args -> arg <> "/h" /\ arg <> "-h") ->
  parse_args args = (invalid_number :: usage_lines, SysExit 2).
Proof.
  intros Hlen Hno. unfold parse_args. rewrite (scan_help_none args Hno).
  apply Nat.ltb_lt in Hlen. rewrite bind_return, Hlen. reflexivity.
Qed.

Lemma parse_args_one (arg : string) :
  arg <> "/h" -> arg <> "-h" ->
  parse_args [arg] = ([], Return (Some arg)).
Proof.
  intros H1 H2. unfold parse_args.
  rewrite (scan_help_none [arg]); [reflexivity|].
  intros a Ha. apply list_elem_of_singleton in Ha. subst. split; assumption.
Qed.

(** C10: with more than one argument of which one is a help flag, the
    usage is printed and the exit code is 0, not 2: the scan for the flags
    comes before the count is looked at. *)
Theorem parse_args_help_before_count (args : list string) :
  (1 < length args)%nat ->
  (exists arg, arg ∈ args /\ (arg = "/h" \/ arg = "-h")) ->
  trace (parse_args args) = usage_lines /\
  result (parse_args args) = SysExit 0 /\
  result (parse_args args) <> SysExit 2.
Proof.
  intros _ H. rewrite (parse_args_help args H). simpl. repeat split. discriminate.
Qed.

Lemma parse_args_help_before_count_witness :
  trace (parse_args ["cam0"; "-h"; "extra"]) = usage_lines /\
  result (parse_args ["cam0"; "-h"; "extra"]) = SysExit 0 /\
  result (parse_args ["cam0"; "-h"; "extra"]) <> SysExit 2.
Proof.
  apply (parse_args_help_before_count ["cam0"; "-h"; "extra"]).
  - simpl. lia.
  - exists "-h". split; [|right; reflexivity].
    apply list_elem_of_In. simpl. tauto.
Defined.




Definition cam_b : Camera := mkCamera "B" [Bgr8] (fun _ => true) 0.


End CliFacts.

(** ** Camera setup *)
Module SetupFacts.

(** A computation that ends by returning or by raising one of the two
    exceptions the [except] clauses name. *)
Definition guarded {E A} (m : proc E A) : Prop :=
  match result m with
  | Return _ => True
  | Raise e => catches e = true
  | _ => False
  end.

Lemma guarded_emit {E} (e : E) : guarded (emit e).
Proof. exact I. Qed.

Lemma guarded_feature_op (cam : Camera) (o : op) : guarded (feature_op cam o).
Proof.
  unfold guarded, feature_op. destruct (supports cam o); simpl; [exact I|].
  destruct o; reflexivity.
Qed.

Lemma guarded_bind {E A B} (m : proc E A) (k : A -> proc E B) :
  guarded m -> (forall a, guarded (k a)) -> guarded (bind m k).
Proof.
  unfold guarded. intros Hm Hk. rewrite result_bind.
  destruct (result m); try assumption. apply Hk.
Qed.

Lemma guarded_wait_done (n : nat) : guarded (wait_done n).
Proof.
  induction n as [|n IH]; [exact I|].
  change (wait_done (S n)) with (emit (IsDone false) ;;; wait_done n).
  apply guarded_bind; [exact I | intros _; exact IH].
Qed.

(** A guarded body under [try] never lets an exception out when the handler
    returns. *)
Lemma try_except_returns {E} (m h : proc E unit) :
  guarded m -> result h = Return tt -> result (try_except m h) = Return tt.
Proof.
  unfold guarded, try_except. destruct m as [tr [[]| |e|]]; simpl; try tauto.
  intros -> Hh. destruct h as [tr' r]. simpl in *. assumption.
Qed.

Create HintDb setup.
#[local] Hint Resolve guarded_emit guarded_feature_op guarded_wait_done : setup.

Ltac guarded_body :=
  repeat (apply guarded_bind; [|intros _]); auto with setup.



Lemma roi_setup_camera_returns (cam : Camera) :
  result (Roi.setup_camera cam) = Return tt.
Proof.
  unfold Roi.setup_camera. rewrite !result_bind.
  rewrite try_except_returns; [|guarded_body|reflexivity].
  rewrite try_except_returns; [|guarded_body|reflexivity].
  apply try_except_returns; [guarded_body | reflexivity].
Qed.

(** Only accepted operations are recorded as done, and no stream starts
    inside a setup function. *)
Definition setup_effect (cam : Camera) (e : effect) : Prop :=
  match e with
  | Did o => supports cam o = true
  | StartStreaming | SetPixelFormat _ => False
  | _ => True
  end.

Lemma setup_effect_feature_op (cam : Camera) (o : op) :
  Forall (setup_effect cam) (trace (feature_op cam o)).
Proof.
  unfold feature_op. destruct (supports cam o) eqn:Ho; simpl; [|constructor].
  constructor; [exact Ho | constructor].
Qed.

Lemma setup_effect_wait_done (cam : Camera) (n : nat) :
  Forall (setup_effect cam) (trace (wait_done n)).
Proof.
  induction n as [|n IH].
  - repeat constructor.
  - change (wait_done (S n)) with (emit (IsDone false) ;;; wait_done n).
    apply Forall_trace_bind; [repeat constructor | intros _; exact IH].
Qed.

Lemma setup_effect_print (cam : Camera) (s : string) :
  Forall (setup_effect cam) (trace (emit (Print s))).
Proof. repeat constructor. Qed.

Lemma setup_effect_ret (cam : Camera) :
  Forall (setup_effect cam) (trace (@ret effect unit tt)).
Proof. constructor. Qed.

#[local] Hint Resolve setup_effect_feature_op setup_effect_wait_done
  setup_effect_print setup_effect_ret : setup.

Ltac setup_trace :=
  repeat first
    [ apply Forall_trace_try
    | apply Forall_trace_bind; [|intros _] ];
  auto with setup.

Lemma roi_setup_camera_effects (cam : Camera) :
  Forall (setup_effect cam) (trace (Roi.setup_camera cam)).
Proof. unfold Roi.setup_camera. setup_trace. Qed.

Lemma tiff_setup_camera_effects (cam : Camera) :
  Forall (setup_effect cam) (trace (Tiff.setup_camera cam)).
Proof. unfold Tiff.setup_camera. setup_trace. Qed.



Lemma setup_effect_no_stream (cam : Camera) (tr : list effect) :
  Forall (setup_effect cam) tr -> StartStreaming ∉ tr.
Proof.
  intros Hall Hin. rewrite Forall_forall in Hall. exact (Hall _ Hin).
Qed.





(** A camera that lacks the exposure features and is not a GigE camera. *)
Definition cam_plain : Camera :=
  mkCamera "DEV_2" [Mono8; Mono12; Bgr8]
    (fun o => match o with
              | GetAttr _ => false
              | GetFeatureByName name => negb (bool_decide (name = "ExposureTime"))
              | _ => true
              end) 3.


End SetupFacts.

(** ** Pixel format negotiation *)
Module NegotiationFacts.

(** [f] is the element of [l] that satisfies [P] after exactly [n] earlier
    elements that satisfy it: [n = 0] is the first match, [n = 2] the
    third. *)
Definition nth_match (P : PixelFormat -> bool) (n : nat)
    (l : list PixelFormat) (f : PixelFormat) : Prop :=
  exists before after,
    l = before ++ f :: after /\ P f = true /\ length (List.filter P before) = n.

(** The formats handed to [cam.set_pixel_format]. *)
Definition selected {A} (m : proc effect A) : list PixelFormat :=
  omap (fun e => match e with SetPixelFormat f => Some f | _ => None end) (trace m).

Lemma filter_lookup_nth_match P n l f :
  nth_match P n l f -> List.filter P l !! n = Some f.
Proof.
  intros (before & after & -> & Hf & Hn).
  rewrite List.filter_app. simpl. rewrite Hf.
  apply list_lookup_middle. symmetry. exact Hn.
Qed.

Lemma nth_match_filter_lookup P n l f :
  List.filter P l !! n = Some f -> nth_match P n l f.
Proof.
  revert n. induction l as [|x l IH]; intros n; simpl; [discriminate|].
  destruct (P x) eqn:Hx.
  - destruct n as [|n]; simpl.
    + intros [= ->]. exists [], l. auto.
    + intros H. destruct (IH n H) as (b & a & -> & Hf & Hn).
      exists (x :: b), a. simpl. rewrite Hx. simpl. auto.
  - intros H. destruct (IH n H) as (b & a & -> & Hf & Hn).
    exists (x :: b), a. simpl. rewrite Hx. auto.
Qed.

Lemma filter_nil_none (P : PixelFormat -> bool) l :
  (forall f, f ∈ l -> P f = false) -> List.filter P l = [].
Proof.
  induction l as [|x l IH]; intros H; simpl; [reflexivity|].
  rewrite (H x) by left. apply IH. intros f Hf. apply H. right. exact Hf.
Qed.

Lemma nth_match_nonempty P n l f : nth_match P n l f -> List.filter P l <> [].
Proof.
  intros H Hnil. apply filter_lookup_nth_match in H. rewrite Hnil in H.
  discriminate H.
Qed.

Section Tables.
Variable COLOR MONO : list PixelFormat.
Variable inter : list PixelFormat -> list PixelFormat -> list PixelFormat.
Variable conv : PixelFormat -> list PixelFormat.
Variable cam : Camera.

Let fmts := get_pixel_formats cam.
Let colors := inter fmts COLOR.
Let monos := inter fmts MONO.
Let ok := Tiff.convertible conv.
Let tiff := Tiff.setup_pixel_format COLOR MONO inter conv cam.
Let roi := Roi.setup_pixel_format COLOR MONO inter conv cam.
Let roi_main := Roi.main_start COLOR MONO inter conv cam.

Lemma native_selected :
  opencv_display_format ∈ fmts ->
  (selected tiff = [opencv_display_format] /\ result tiff = Return tt) /\
  (selected roi = [opencv_display_format] /\ result roi = Return tt).
Proof.
  intros H. unfold tiff, roi, Tiff.setup_pixel_format, Roi.setup_pixel_format.
  fold fmts. rewrite !bool_decide_eq_true_2 by exact H. repeat split.
Qed.

Lemma first_color_selected f :
  opencv_display_format ∉ fmts -> nth_match ok 0 colors f ->
  (selected tiff = [f] /\ result tiff = Return tt) /\
  (selected roi = [f] /\ result roi = Return tt).
Proof.
  intros H Hm. pose proof (nth_match_nonempty _ _ _ _ Hm) as Hne.
  apply filter_lookup_nth_match in Hm.
  unfold tiff, roi, Tiff.setup_pixel_format, Roi.setup_pixel_format, tuple_get.
  fold fmts colors. rewrite !bool_decide_eq_false_2 by exact H.
  change (Roi.convertible conv) with ok. change (Tiff.convertible conv) with ok.
  rewrite !bool_decide_eq_false_2 by exact Hne. simpl. rewrite Hm.
  repeat split.
Qed.

Lemma first_mono_selected_tiff f :
  opencv_display_format ∉ fmts -> (forall c, c ∈ colors -> ok c = false) ->
  nth_match ok 0 monos f ->
  selected tiff = [f] /\ result tiff = Return tt.
Proof.
  intros H Hc Hm. pose proof (nth_match_nonempty _ _ _ _ Hm) as Hne.
  apply filter_lookup_nth_match in Hm. apply filter_nil_none in Hc.
  unfold tiff, Tiff.setup_pixel_format, tuple_get. fold fmts colors monos.
  rewrite bool_decide_eq_false_2 by exact H.
  change (Tiff.convertible conv) with ok. rewrite Hc. simpl.
  rewrite bool_decide_eq_false_2 by exact Hne. simpl. rewrite Hm.
  repeat split.
Qed.

Lemma third_mono_selected_roi f :
  opencv_display_format ∉ fmts -> (forall c, c ∈ colors -> ok c = false) ->
  nth_match ok 2 monos f ->
  selected roi = [f] /\ result roi = Return tt.
Proof.
  intros H Hc Hm. apply filter_lookup_nth_match in Hm. apply filter_nil_none in Hc.
  unfold roi, Roi.setup_pixel_format, tuple_get. fold fmts colors monos.
  rewrite bool_decide_eq_false_2 by exact H.
  change (Roi.convertible conv) with ok. rewrite Hc. simpl.
  destruct (List.filter ok monos) as [|f0 [|f1 [|f2 rest]]]; try discriminate Hm.
  simpl in Hm. injection Hm as ->. repeat split.
Qed.

Lemma nothing_selected :
  opencv_display_format ∉ fmts -> (forall c, c ∈ colors -> ok c = false) ->
  (forall m, m ∈ monos -> ok m = false) ->
  (selected tiff = [] /\ result tiff = SysExit 1) /\
  (selected roi_main = [] /\ result roi_main = SysExit 1 /\
   StartStreaming ∉ trace roi_main).
Proof.
  intros H Hc Hm. apply filter_nil_none in Hc, Hm.
  unfold roi_main, Roi.main_start, tiff, Tiff.setup_pixel_format,
    Roi.setup_pixel_format.
  fold fmts colors monos. rewrite !bool_decide_eq_false_2 by exact H.
  change (Roi.convertible conv) with ok. change (Tiff.convertible conv) with ok.
  rewrite Hc, Hm. simpl. split; [split; reflexivity|].
  pose proof (SetupFacts.roi_setup_camera_returns cam) as Hret.
  pose proof (SetupFacts.roi_setup_camera_effects cam) as Heff.
  destruct (Roi.setup_camera cam) as [tr r]. simpl in Hret, Heff. subst r.
  rewrite bind_return. unfold selected, trace, result. cbn [fst snd].
  assert (Hsel : omap (fun e => match e with
                                | SetPixelFormat f => Some f
                                | _ => None
                                end) tr = []).
  { clear -Heff. induction Heff as [|e tr He _ IH]; [reflexivity|].
    destruct e; simpl in He; try contradiction; exact IH. }
  split; [|split; [reflexivity|]].
  - rewrite omap_app, Hsel. reflexivity.
  - cbn [fst]. intros Hin. apply elem_of_app in Hin. destruct Hin as [Hin|Hin].
    + exact (SetupFacts.setup_effect_no_stream cam tr Heff Hin).
    + apply list_elem_of_In in Hin. simpl in Hin.
      destruct Hin as [Hin|[]]. discriminate Hin.
Qed.

(** C3, amended: the target format is taken if the camera has it; else the
    first convertible colour format; else the TIFF script takes the first
    convertible mono format and the ROI script the third one
    ([convertible_mono_formats[2]]); with no candidate at all the scripts
    abort with exit code 1 and no stream is started. *)
Theorem pixel_format_selection_order :
  (opencv_display_format ∈ fmts ->
     (selected tiff = [opencv_display_format] /\ result tiff = Return tt) /\
     (selected roi = [opencv_display_format] /\ result roi = Return tt)) /\
  (opencv_display_format ∉ fmts -> forall f, nth_match ok 0 colors f ->
     (selected tiff = [f] /\ result tiff = Return tt) /\
     (selected roi = [f] /\ result roi = Return tt)) /\
  (opencv_display_format ∉ fmts -> (forall c, c ∈ colors -> ok c = false) ->
     forall f, nth_match ok 0 monos f ->
     selected tiff = [f] /\ result tiff = Return tt) /\
  (opencv_display_format ∉ fmts -> (forall c, c ∈ colors -> ok c = false) ->
     forall f, nth_match ok 2 monos f ->
     selected roi = [f] /\ result roi = Return tt) /\
  (opencv_display_format ∉ fmts -> (forall c, c ∈ colors -> ok c = false) ->
     (forall m, m ∈ monos -> ok m = false) ->
     (selected tiff = [] /\ result tiff = SysExit 1) /\
     (selected roi_main = [] /\ result roi_main = SysExit 1 /\
      StartStreaming ∉ trace roi_main)).
Proof.
  split; [exact native_selected|].
  split; [intros H f; exact (first_color_selected f H)|].
  split; [intros H Hc f; exact (first_mono_selected_tiff f H Hc)|].
  split; [intros H Hc f; exact (third_mono_selected_roi f H Hc)|].
  exact nothing_selected.
Qed.
End Tables.

(** Concrete tables for the examples: intersection in the order of the
    camera's list. *)
Definition COLOR_sample : list PixelFormat := [BayerRG8; BayerRG12; Rgb8; Bgr8].
Definition MONO_sample : list PixelFormat := [Mono8; Mono10; Mono12; Mono16].
Definition inter_sample (a b : list PixelFormat) : list PixelFormat :=
  List.filter (fun f => bool_decide (f ∈ b)) a.
Definition conv_sample (f : PixelFormat) : list PixelFormat :=
  match f with
  | Mono16 | OtherFormat _ => []
  | _ => [Mono8; Rgb8; Bgr8]
  end.

Definition cam_of (fmts : list PixelFormat) : Camera :=
  mkCamera "DEV_3" fmts (fun _ => true) 0.

(** C3 as stated fails in the ROI script: with three convertible mono
    formats it sets the third, [Mono12], not the first, [Mono8]. *)
Lemma roi_mono_choice_is_not_first :
  nth_match (Roi.convertible conv_sample) 0
    (inter_sample [Mono8; Mono10; Mono12] MONO_sample) Mono8 /\
  selected (Roi.setup_pixel_format COLOR_sample MONO_sample inter_sample conv_sample
              (cam_of [Mono8; Mono10; Mono12])) = [Mono12].
Proof.
  split; [|reflexivity].
  exists [], [Mono10; Mono12]. repeat split.
Qed.

Lemma pixel_format_selection_order_witness :
  selected (Tiff.setup_pixel_format COLOR_sample MONO_sample inter_sample conv_sample
              (cam_of [Mono8; Bgr8])) = [Bgr8] /\
  selected (Roi.setup_pixel_format COLOR_sample MONO_sample inter_sample conv_sample
              (cam_of [Mono8; BayerRG12])) = [BayerRG12] /\
  selected (Tiff.setup_pixel_format COLOR_sample MONO_sample inter_sample conv_sample
              (cam_of [Mono16; Mono10; Mono12; Mono8])) = [Mono10] /\
  selected (Roi.setup_pixel_format COLOR_sample MONO_sample inter_sample conv_sample
              (cam_of [Mono16; Mono10; Mono12; Mono8])) = [Mono8] /\
  result (Roi.main_start COLOR_sample MONO_sample inter_sample conv_sample
              (cam_of [Mono16])) = SysExit 1.
Proof.
  assert (Hin : forall (f : PixelFormat) (l : list PixelFormat),
             bool_decide (f ∈ l) = true -> f ∈ l)
    by (intros f l; apply bool_decide_eq_true_1).
  assert (Hnotin : forall (f : PixelFormat) (l : list PixelFormat),
             bool_decide (f ∈ l) = false -> f ∉ l)
    by (intros f l; apply bool_decide_eq_false_1).
  assert (Hall : forall (P : PixelFormat -> bool) (l : list PixelFormat),
             forallb (fun c => negb (P c)) l = true ->
             forall c, c ∈ l -> P c = false).
  { intros P l H c Hc. rewrite forallb_forall in H.
    apply list_elem_of_In in Hc. specialize (H c Hc).
    destruct (P c); [discriminate H | reflexivity]. }
  pose proof (pixel_format_selection_order COLOR_sample MONO_sample inter_sample
                conv_sample) as T.
  destruct (T (cam_of [Mono8; Bgr8])) as (T1 & _).
  destruct (T (cam_of [Mono8; BayerRG12])) as (_ & T2 & _).
  destruct (T (cam_of [Mono16; Mono10; Mono12; Mono8])) as (_ & _ & T3 & T4 & _).
  destruct (T (cam_of [Mono16])) as (_ & _ & _ & _ & T5).
  split; [|split; [|split; [|split]]].
  - refine (proj1 (proj1 (T1 _))). apply Hin. reflexivity.
  - refine (proj1 (proj2 (T2 _ BayerRG12 _))).
    + apply Hnotin. reflexivity.
    + exists [], []. repeat split.
  - refine (proj1 (T3 _ _ Mono10 _)).
    + apply Hnotin. reflexivity.
    + apply Hall. reflexivity.
    + exists [Mono16], [Mono12; Mono8]. repeat split.
  - refine (proj1 (T4 _ _ Mono8 _)).
    + apply Hnotin. reflexivity.
    + apply Hall. reflexivity.
    + exists [Mono16; Mono10; Mono12], []. repeat split.
  - refine (proj1 (proj2 (proj2 (T5 _ _ _)))).
    + apply Hnotin. reflexivity.
    + apply Hall. reflexivity.
    + apply Hall. reflexivity.
Defined.

End NegotiationFacts.

(** ** The bounded queue *)
Module QueueFacts.
Import PyQueue.

(** The items of the [put] calls of a list, in order, and the number of
    its [get] calls. *)
Definition pushed {A} (calls : list (call A)) : list A :=
  omap (fun c => match c with Put item => Some item | Get => None end) calls.

Definition is_get {A} (c : call A) : bool :=
  match c with
  | Get => true
  | Put _ => false
  end.

Definition pops {A} (calls : list (call A)) : nat :=
  length (List.filter is_get calls).

Section Fifo.
Context {A : Type}.
Variable C : Z.
Hypothesis C_positive : 0 < C.

Lemma put_full (q : Queue A) (item : A) :
  full q = true -> put q item = None.
Proof. unfold put. intros ->. reflexivity. Qed.

Lemma put_room (q : Queue A) (item : A) :
  full q = false -> put q item = Some (mkQueue (maxsize q) (items q ++ [item])).
Proof. unfold put. intros ->. reflexivity. Qed.

(** The queue of capacity [C] is full exactly when it holds [C] items. *)
Lemma full_iff (q : Queue A) :
  maxsize q = C -> Z.of_nat (qsize q) <= C ->
  (full q = true <-> Z.of_nat (qsize q) = C).
Proof using C_positive.
  unfold full. intros -> Hle. rewrite andb_true_iff, Z.ltb_lt, Z.leb_le. lia.
Qed.

Lemma pushed_cons (c : call A) (calls : list (call A)) :
  pushed (c :: calls) = pushed [c] ++ pushed calls.
Proof. destruct c; reflexivity. Qed.

Lemma pops_cons (c : call A) (calls : list (call A)) :
  pops (c :: calls) = (pops [c] + pops calls)%nat.
Proof. destruct c; reflexivity. Qed.

(** What one returning call does. *)
Lemma exec_spec (h h' : history A) (c : call A) :
  maxsize (queue h) = C -> Z.of_nat (qsize (queue h)) <= C ->
  exec h c = Some h' ->
  maxsize (queue h') = C /\ Z.of_nat (qsize (queue h')) <= C /\
  popped h' ++ items (queue h') = popped h ++ items (queue h) ++ pushed [c] /\
  length (popped h') = (length (popped h) + pops [c])%nat.
Proof using C_positive.
  intros Hmax Hsize. destruct c as [item|]; simpl.
  - destruct (full (queue h)) eqn:Hfull.
    + rewrite put_full by assumption. discriminate.
    + rewrite put_room by assumption. intros [= <-]. simpl. unfold qsize in *. simpl.
      split; [assumption|]. split; [|split; [reflexivity | unfold pops; simpl; lia]].
      rewrite length_app. simpl.
      assert (Z.of_nat (length (items (queue h))) <> C).
      { intros Heq. apply (full_iff (queue h) Hmax Hsize) in Heq. congruence. }
      lia.
  - unfold get. destruct (items (queue h)) as [|item rest] eqn:Hitems;
      [discriminate|].
    intros [= <-]. unfold qsize in *. simpl. rewrite Hitems in Hsize. simpl in Hsize.
    split; [assumption|]. split; [lia|]. split.
    + rewrite app_nil_r, <- app_assoc. reflexivity.
    + rewrite length_app. reflexivity.
Qed.

Lemma run_from_spec (calls : list (call A)) (h h' : history A) :
  maxsize (queue h) = C -> Z.of_nat (qsize (queue h)) <= C ->
  run_from h calls = Some h' ->
  maxsize (queue h') = C /\ Z.of_nat (qsize (queue h')) <= C /\
  popped h' ++ items (queue h') = popped h ++ items (queue h) ++ pushed calls /\
  length (popped h') = (length (popped h) + pops calls)%nat.
Proof using C_positive.
  revert h. induction calls as [|c calls IH]; intros h Hmax Hsize Hrun.
  - injection Hrun as <-. simpl. rewrite app_nil_r. split; [assumption|].
    split; [assumption|]. split; [reflexivity | unfold pops; simpl; lia].
  - cbn [run_from] in Hrun. destruct (exec h c) as [h1|] eqn:H1; [|discriminate].
    destruct (exec_spec h h1 c Hmax Hsize H1) as (Hmax1 & Hsize1 & Hfifo1 & Hlen1).
    destruct (IH h1 Hmax1 Hsize1 Hrun) as (Hmax' & Hsize' & Hfifo' & Hlen').
    split; [assumption|]. split; [assumption|]. split.
    + rewrite (pushed_cons c calls), Hfifo', app_assoc, Hfifo1, <- !app_assoc.
      reflexivity.
    + rewrite (pops_cons c calls), Hlen', Hlen1. lia.
Qed.

Lemma run_from_app (calls1 calls2 : list (call A)) (h : history A) :
  run_from h (calls1 ++ calls2) =
  match run_from h calls1 with
  | Some h' => run_from h' calls2
  | None => None
  end.
Proof.
  revert h. induction calls1 as [|c calls1 IH]; intros h; [reflexivity|].
  simpl. destruct (exec h c); [apply IH | reflexivity].
Qed.

(** Every [put] directly followed by a [get] on the empty queue. *)
Definition hand_over (xs : list A) : list (call A) :=
  flat_map (fun x => [Put x; Get]) xs.

Lemma full_below (q : list A) :
  Z.of_nat (length q) < C -> full (mkQueue C q) = false.
Proof.
  intros Hlen. unfold full, qsize. cbn [maxsize items].
  apply andb_false_iff. right. apply Z.leb_gt. exact Hlen.
Qed.

Lemma run_hand_over (xs p : list A) :
  run_from (mkHistory (mkQueue C []) p) (hand_over xs)
    = Some (mkHistory (mkQueue C []) (p ++ xs)).
Proof using C_positive.
  revert p. induction xs as [|x xs IH]; intros p.
  - simpl. rewrite app_nil_r. reflexivity.
  - change (hand_over (x :: xs)) with (Put x :: Get :: hand_over xs).
    cbn [run_from exec queue popped].
    rewrite put_room by (apply full_below; simpl; lia).
    cbn [maxsize items app run_from exec queue popped get].
    rewrite IH, <- app_assoc. reflexivity.
Qed.

Lemma run_puts (xs q p : list A) :
  Z.of_nat (length q + length xs) <= C ->
  run_from (mkHistory (mkQueue C q) p) (map Put xs)
    = Some (mkHistory (mkQueue C (q ++ xs)) p).
Proof.
  revert q. induction xs as [|x xs IH]; intros q Hlen.
  - simpl. rewrite app_nil_r. reflexivity.
  - cbn [map run_from exec queue popped]. simpl in Hlen.
    rewrite put_room by (apply full_below; lia).
    cbn [maxsize items].
    rewrite IH by (rewrite length_app; simpl; lia).
    rewrite <- app_assoc. reflexivity.
Qed.

Lemma pops_hand_over (xs : list A) : pops (hand_over xs) = length xs.
Proof.
  induction xs as [|x xs IH]; [reflexivity|].
  unfold pops in *. simpl. rewrite IH. reflexivity.
Qed.

Lemma pops_puts (xs : list A) : pops (map Put xs) = 0%nat.
Proof. induction xs as [|x xs IH]; [reflexivity | exact IH]. Qed.

Lemma pops_app (calls1 calls2 : list (call A)) :
  pops (calls1 ++ calls2) = (pops calls1 + pops calls2)%nat.
Proof. unfold pops. rewrite List.filter_app, length_app. reflexivity. Qed.

(** With at least as many items to push as [get] calls, there is an order
    in which every [get] returns: the first [m] items go out in their
    order, and of the others as many are stored as the capacity allows. *)
Lemma every_pop_served (xs : list A) (m : nat) :
  (m <= length xs)%nat ->
  exists calls h,
    run C calls = Some h /\ pops calls = m /\
    popped h = take m xs /\
    items (queue h) = take (Z.to_nat C) (drop m xs).
Proof using C_positive.
  intros Hm.
  exists (hand_over (take m xs) ++ map Put (take (Z.to_nat C) (drop m xs))).
  eexists. unfold run, new. rewrite run_from_app, run_hand_over.
  rewrite run_puts by (simpl; rewrite length_take; lia).
  split; [reflexivity|]. simpl.
  rewrite pops_app, pops_hand_over, pops_puts, length_take.
  split; [lia|]. split; reflexivity.
Qed.

(** C6: take any order in which [put] and [get] calls on a queue of
    capacity [C] return. The queue then holds at most [C] items; the items
    pushed are exactly the items popped so far followed by the queue
    content, so the [get] calls have returned the first pushed items in
    the order of the [put] calls and no pushed item is lost; a further
    [put] returns at once with its item at the tail unless the queue holds
    [C] items, when it has to wait; a further [get] returns the head
    unless the queue is empty, when it has to wait. And for any items
    and any number of [get] calls not above the number of items there is
    such an order in which every [get] returns. *)
Theorem bounded_queue_fifo (calls : list (call A)) (h : history A) :
  run C calls = Some h ->
  Z.of_nat (qsize (queue h)) <= C /\
  pushed calls = popped h ++ items (queue h) /\
  popped h = take (pops calls) (pushed calls) /\
  (full (queue h) = true <-> Z.of_nat (qsize (queue h)) = C) /\
  (forall item,
     if full (queue h) then run C (calls ++ [Put item]) = None
     else run C (calls ++ [Put item])
          = Some (mkHistory (mkQueue C (items (queue h) ++ [item])) (popped h))) /\
  match items (queue h) with
  | [] => run C (calls ++ [Get]) = None
  | first :: rest =>
      run C (calls ++ [Get])
        = Some (mkHistory (mkQueue C rest) (popped h ++ [first]))
  end /\
  (forall (xs : list A) (m : nat), (m <= length xs)%nat ->
     exists calls' h',
       run C calls' = Some h' /\ pops calls' = m /\
       popped h' = take m xs /\
       items (queue h') = take (Z.to_nat C) (drop m xs)).
Proof using C_positive.
  intros Hrun.
  destruct (run_from_spec calls (mkHistory (new C) []) h eq_refl)
    as (Hmax & Hsize & Hfifo & Hlen);
    [unfold qsize; simpl; lia | exact Hrun |].
  simpl in Hfifo, Hlen.
  split; [assumption|]. split; [symmetry; assumption|]. split; [|split; [|split; [|split]]].
  - rewrite <- Hfifo, <- Hlen. symmetry. apply take_app_length.
  - apply full_iff; assumption.
  - intros item. unfold run in *. rewrite run_from_app, Hrun. simpl.
    destruct (full (queue h)) eqn:Hfull.
    + rewrite put_full by assumption. reflexivity.
    + rewrite put_room by assumption. rewrite Hmax. reflexivity.
  - unfold run in *. rewrite run_from_app, Hrun. simpl. unfold get.
    destruct (items (queue h)); [reflexivity|]. rewrite Hmax. reflexivity.
  - apply every_pop_served.
Qed.
End Fifo.

(** The queue of the handler: ten [put]s fill it, two [get]s make room,
    and the two [put]s that had to wait return behind them. *)
Definition sample_calls : list (call Z) :=
  map Put [1; 2; 3; 4; 5; 6; 7; 8; 9; 10] ++ [Get; Get] ++ map Put [11; 12].

Definition sample_history : history Z :=
  mkHistory (mkQueue 10 [3; 4; 5; 6; 7; 8; 9; 10; 11; 12]) [1; 2].

Example sample_run : run 10 sample_calls = Some sample_history.
Proof. reflexivity. Qed.

(** The eleventh [put] cannot return before a [get], nor a [get] before
    the first [put]. *)
Example sample_waits :
  run 10 (map Put [1; 2; 3; 4; 5; 6; 7; 8; 9; 10; 11]) = None /\
  run 10 [Get; Put 1] = None /\
  run 10 [Put 1; Get] = Some (mkHistory (mkQueue 10 []) [1]).
Proof. repeat split. Qed.

Lemma bounded_queue_fifo_witness :
  pushed sample_calls = popped sample_history ++ items (queue sample_history) /\
  popped sample_history = take 2 (pushed sample_calls) /\
  run 10 (sample_calls ++ [Put 13]) = None /\
  run 10 (sample_calls ++ [Get])
    = Some (mkHistory (mkQueue 10 [4; 5; 6; 7; 8; 9; 10; 11; 12]) [1; 2; 3]).
Proof.
  destruct (bounded_queue_fifo 10 ltac:(lia) sample_calls sample_history eq_refl)
    as (_ & Hfifo & Hpop & _ & Hput & Hget & _).
  split; [exact Hfifo|]. split; [exact Hpop|].
  split; [exact (Hput 13) | exact Hget].
Defined.

End QueueFacts.

(** ** The numpy operations *)
Module NpFacts.
Import Np.

(** For a 12-bit sample the shift loses nothing: no wrap-around. *)
Lemma shl4_u16_small (v : Z) :
  0 <= v < 4096 -> shl4_u16 v = Z.shiftl v 4 /\ shl4_u16 v = v * 16 /\ shl4_u16 v < 65536.
Proof.
  intros Hv. unfold shl4_u16.
  change 65535 with (Z.ones 16). rewrite Z.land_ones by lia.
  rewrite Z.shiftl_mul_pow2 by lia. change (2 ^ 4) with 16. change (2 ^ 16) with 65536.
  rewrite Z.mod_small by lia. lia.
Qed.

(** Above 12 bits the shift wraps. *)
Example shl4_u16_wraps : shl4_u16 4096 = 0.
Proof. reflexivity. Qed.

Lemma lshift4_small (a : ndarray) :
  Forall (fun v => 0 <= v < 4096) (flat a) ->
  flat (lshift4 a) = map (fun v => Z.shiftl v 4) (flat a).
Proof.
  simpl. induction 1 as [|v l Hv _ IH]; simpl; [reflexivity|].
  rewrite IH. destruct (shl4_u16_small v Hv) as (-> & _). reflexivity.
Qed.

Lemma decode_uint16_length (n : nat) (buf : list Byte.byte) :
  length buf = (2 * n)%nat -> length (decode_uint16 buf) = n.
Proof.
  revert buf. induction n as [|n IH]; intros buf Hlen.
  - destruct buf; [reflexivity | discriminate Hlen].
  - destruct buf as [|lo [|hi rest]]; simpl in Hlen; try lia.
    simpl. rewrite IH by lia. reflexivity.
Qed.

(** Row-major: element [j] of row [i] is element [i * w + j] of the flat
    sequence. *)
Lemma chunks_lookup (h w : nat) (l : list Z) (i j : nat) :
  (i < h)%nat -> (j < w)%nat ->
  chunks h w l !! i ≫= (fun row => row !! j) = l !! (i * w + j)%nat.
Proof.
  revert l i. induction h as [|h IH]; intros l i Hi Hj; [lia|].
  destruct i as [|i]; simpl.
  - rewrite lookup_take_lt by assumption. reflexivity.
  - rewrite IH by lia. rewrite lookup_drop. f_equal. lia.
Qed.

Lemma chunks_length (h w : nat) (l : list Z) : length (chunks h w l) = h.
Proof. revert l. induction h as [|h IH]; intros l; simpl; [|rewrite IH]; reflexivity. Qed.

Lemma chunks_row_length (h w : nat) (l : list Z) :
  length l = (h * w)%nat -> Forall (fun row => length row = w) (chunks h w l).
Proof.
  revert l. induction h as [|h IH]; intros l Hlen; simpl; constructor.
  - rewrite length_take. lia.
  - apply IH. rewrite length_drop. lia.
Qed.

(** X4: [reshape] keeps the samples and yields [height] rows of [width]
    samples in row-major order. *)
Lemma reshape_row_major {E} (a : list Z) (height width : nat) :
  length a = (height * width)%nat ->
  @reshape E a height width = ret (mkArray height width a) /\
  length (tolist (mkArray height width a)) = height /\
  Forall (fun row => length row = width) (tolist (mkArray height width a)) /\
  (forall i j, (i < height)%nat -> (j < width)%nat ->
     tolist (mkArray height width a) !! i ≫= (fun row => row !! j)
       = a !! (i * width + j)%nat).
Proof.
  intros Hlen. unfold reshape, tolist. simpl.
  rewrite (proj2 (Nat.eqb_eq _ _) Hlen).
  split; [reflexivity|]. split; [apply chunks_length|].
  split; [apply chunks_row_length, Hlen|].
  intros i j. apply chunks_lookup.
Qed.

Lemma getitem_in_range {E} (a : ndarray) (i j : nat) :
  length (flat a) = (rows a * cols a)%nat -> (i < rows a)%nat -> (j < cols a)%nat ->
  exists v, @getitem E a i j = ret v /\ flat a !! (i * cols a + j)%nat = Some v.
Proof.
  intros Hlen Hi Hj. unfold getitem.
  rewrite (proj2 (Nat.ltb_lt _ _) Hi), (proj2 (Nat.ltb_lt _ _) Hj). simpl.
  destruct (flat a !! (i * cols a + j)%nat) as [v|] eqn:Hv.
  - exists v. split; reflexivity.
  - apply lookup_ge_None in Hv. nia.
Qed.

Lemma getitem_out_of_range {E} (a : ndarray) (i j : nat) :
  (rows a <= i)%nat \/ (cols a <= j)%nat -> @getitem E a i j = raise IndexError.
Proof.
  intros H. unfold getitem.
  destruct (i <? rows a)%nat eqn:Hi; [|reflexivity].
  destruct (j <? cols a)%nat eqn:Hj; [|reflexivity].
  apply Nat.ltb_lt in Hi, Hj. lia.
Qed.

(** The samples of the 2x2 example and what the two array operations make
    of them. *)
Example reshape_2x2 :
  tolist (mkArray 2 2 [100; 200; 300; 400]) = [[100; 200]; [300; 400]].
Proof. reflexivity. Qed.

Example lshift4_2x2 :
  tolist (lshift4 (mkArray 2 2 [100; 200; 300; 400]))
    = [[1600; 3200]; [4800; 6400]].
Proof. reflexivity. Qed.

End NpFacts.

(** ** The callback of the TIFF script *)
Module TiffFacts.
Import Tiff.

Section Driver.
Variable Image : Type.
Variable convert_pixel_format : Frame -> PixelFormat -> option Frame.
Variable as_opencv_image : Frame -> option Image.
Variable cvtColor : Np.ndarray -> Image.

Let call := Handler_call Image convert_pixel_format as_opencv_image cvtColor.
Let to_tiff := bayer_to_tiff Image convert_pixel_format cvtColor.

(** Effects other than the return of [frame] to the driver. *)
Definition not_requeue (frame : Frame) (e : event Image) : Prop :=
  is_queue_frame frame e = false.

Ltac leaf :=
  unfold convert, opencv_image, Np.frombuffer, Np.reshape, Np.getitem;
  repeat case_match; repeat constructor.

Ltac no_requeue :=
  repeat (apply Forall_trace_bind; [|intros ?]); leaf.

Lemma to_tiff_no_requeue (frame : Frame) :
  Forall (not_requeue frame) (trace (to_tiff frame)).
Proof. unfold to_tiff, bayer_to_tiff. no_requeue. Qed.

(** Everything the callback does before its last statement. *)
Definition body (frame : Frame) : proc (event Image) unit :=
  if bool_decide (get_status frame = Complete) then
    emit (PrintAcquired frame) ;;;
    display <- (if bool_decide (get_pixel_format frame = opencv_display_format)
                then ret frame
                else to_tiff frame) ;;
    img <- opencv_image Image as_opencv_image display ;;
    emit (Imshow img)
  else ret tt.

Lemma body_no_requeue (frame : Frame) :
  Forall (not_requeue frame) (trace (body frame)).
Proof.
  unfold body. case_match; [|constructor].
  apply Forall_trace_bind; [repeat constructor | intros _].
  apply Forall_trace_bind; [|intros ?; no_requeue].
  case_match; [constructor | apply to_tiff_no_requeue].
Qed.

Lemma count_no_requeue (frame : Frame) (tr : list (event Image)) :
  Forall (not_requeue frame) tr -> queue_frame_count frame tr = 0%nat.
Proof.
  unfold queue_frame_count. induction 1 as [|e tr He _ IH]; [reflexivity|].
  simpl. rewrite He. exact IH.
Qed.

Lemma count_app (frame : Frame) (tr1 tr2 : list (event Image)) :
  queue_frame_count frame (tr1 ++ tr2)
    = (queue_frame_count frame tr1 + queue_frame_count frame tr2)%nat.
Proof. unfold queue_frame_count. rewrite List.filter_app, length_app. reflexivity. Qed.

Lemma call_unfold (key : Z) (frame : Frame) :
  key <> ENTER_KEY_CODE ->
  call key frame = (body frame ;;; emit (QueueFrame frame)).
Proof.
  intros Hkey. unfold call, Handler_call.
  rewrite (proj2 (Z.eqb_neq _ _) Hkey). reflexivity.
Qed.

(** Without the shutdown key, a call that returns has requeued the frame
    exactly once. *)
Lemma tiff_call_requeues_once (key : Z) (frame : Frame) :
  key <> ENTER_KEY_CODE -> result (call key frame) = Return tt ->
  queue_frame_count frame (trace (call key frame)) = 1%nat.
Proof.
  intros Hkey. rewrite (call_unfold key frame Hkey).
  rewrite result_bind, trace_bind.
  pose proof (body_no_requeue frame) as Hbody.
  destruct (result (body frame)); try discriminate. intros _.
  rewrite count_app, (count_no_requeue _ _ Hbody). simpl.
  unfold queue_frame_count. simpl. rewrite bool_decide_eq_true_2; reflexivity.
Qed.

(** X12: a call that ends with an exception has not requeued the frame. *)
Lemma call_raises_not_requeued (key : Z) (frame : Frame) (e : exn) :
  result (call key frame) = Raise e ->
  queue_frame_count frame (trace (call key frame)) = 0%nat.
Proof.
  destruct (decide (key = ENTER_KEY_CODE)) as [->|Hkey]; [discriminate|].
  rewrite (call_unfold key frame Hkey). rewrite result_bind, trace_bind.
  pose proof (body_no_requeue frame) as Hbody.
  destruct (result (body frame)); try discriminate; intros _.
  apply count_no_requeue, Hbody.
Qed.

(** With the shutdown key the callback sets the event and returns at
    once. *)
Lemma call_enter (frame : Frame) :
  call ENTER_KEY_CODE frame = ([ShutdownEventSet], Return tt).
Proof. reflexivity. Qed.

(** *** The size checks of the Bayer path *)


(** Once the first check has passed, the second one cannot fail. *)
Lemma second_check_dead (frame : Frame) :
  get_buffer_size frame = (get_width frame * get_height frame * 2)%nat ->
  length (Np.decode_uint16 (get_buffer frame))
    = (get_width frame * get_height frame)%nat.
Proof. intros H. apply NpFacts.decode_uint16_length. unfold get_buffer_size in H. lia. Qed.

(** *** The whole Bayer path on a frame that is large enough *)
Lemma to_tiff_large_frame (frame display : Frame) :
  convert_pixel_format frame opencv_display_format = Some display ->
  get_buffer_size frame = (get_width frame * get_height frame * 2)%nat ->
  (200 < get_height frame)%nat -> (200 < get_width frame)%nat ->
  let raw := Np.mkArray (get_height frame) (get_width frame)
               (Np.decode_uint16 (get_buffer frame)) in
  let path := "output_" +:+ pretty (get_id frame) +:+ ".tiff" in
  exists p1 p2 p3 q1 q2 q3,
    to_tiff frame =
      ([PrintOrigin p1 p2 p3; PrintTiff q1 q2 q3; CvtColor (Np.lshift4 raw);
        Imwrite path (cvtColor (Np.lshift4 raw)); PrintSaved path],
       Return display).
Proof.
  intros Hconv Hsize Hh Hw raw path.
  pose proof (second_check_dead frame Hsize) as Hlen.
  assert (Hraw : length (Np.flat raw) = (Np.rows raw * Np.cols raw)%nat)
    by (simpl; lia).
  assert (Hshift : length (Np.flat (Np.lshift4 raw))
                   = (Np.rows (Np.lshift4 raw) * Np.cols (Np.lshift4 raw))%nat)
    by (simpl; rewrite length_map; lia).
  destruct (@NpFacts.getitem_in_range (event Image) raw 0 0 Hraw)
    as (p1 & Hp1 & _); [simpl; lia..|].
  destruct (@NpFacts.getitem_in_range (event Image) raw 100 100 Hraw)
    as (p2 & Hp2 & _); [simpl; lia..|].
  destruct (@NpFacts.getitem_in_range (event Image) raw 200 200 Hraw)
    as (p3 & Hp3 & _); [simpl; lia..|].
  destruct (@NpFacts.getitem_in_range (event Image) (Np.lshift4 raw) 0 0 Hshift)
    as (q1 & Hq1 & _); [simpl; lia..|].
  destruct (@NpFacts.getitem_in_range (event Image) (Np.lshift4 raw) 100 100 Hshift)
    as (q2 & Hq2 & _); [simpl; lia..|].
  destruct (@NpFacts.getitem_in_range (event Image) (Np.lshift4 raw) 200 200 Hshift)
    as (q3 & Hq3 & _); [simpl; lia..|].
  exists p1, p2, p3, q1, q2, q3.
  unfold to_tiff, bayer_to_tiff, convert, Np.frombuffer, Np.reshape.
  rewrite Hconv. fold (get_buffer_size frame).
  assert (Heven : (get_buffer_size frame mod 2 =? 0)%nat = true).
  { apply Nat.eqb_eq. rewrite Hsize. apply Nat.Div0.mod_mul. }
  rewrite Heven. cbn [bind ret app].
  rewrite (proj2 (Nat.eqb_eq _ _) Hsize). cbn [negb bind ret app].
  assert (Hlen' : length (Np.decode_uint16 (get_buffer frame))
                  = (get_height frame * get_width frame)%nat) by lia.
  rewrite (proj2 (Nat.eqb_eq _ _) Hlen), (proj2 (Nat.eqb_eq _ _) Hlen').
  cbn [negb bind ret app]. fold raw.
  rewrite Hp1. cbn [bind ret app]. rewrite Hp2. cbn [bind ret app].
  rewrite Hp3. cbn [bind ret app emit].
  rewrite Hq1. cbn [bind ret app]. rewrite Hq2. cbn [bind ret app].
  rewrite Hq3. reflexivity.
Qed.
End Driver.

End TiffFacts.

(** ** The callback and the loop of the ROI script *)
Module RoiFacts.
Import Roi.

(** The three ways the callback can go. *)
Lemma call_not_complete (self : Handler) (frame : Frame) :
  get_status frame <> Complete ->
  Handler_call self frame = ([QueueFrame frame], Return self).
Proof.
  intros H. unfold Handler_call. rewrite bool_decide_eq_false_2 by assumption.
  reflexivity.
Qed.

Lemma call_complete_room (self : Handler) (frame : Frame) :
  get_status frame = Complete -> PyQueue.full (display_queue self) = false ->
  Handler_call self frame =
    ([PrintAcquired frame; QueueFrame frame],
     Return (mkHandler (PyQueue.mkQueue (PyQueue.maxsize (display_queue self))
                          (PyQueue.items (display_queue self) ++ [frame])))).
Proof.
  intros H Hfull. unfold Handler_call, PyQueue.put.
  rewrite bool_decide_eq_true_2 by assumption. rewrite Hfull. reflexivity.
Qed.

Lemma call_complete_full (self : Handler) (frame : Frame) :
  get_status frame = Complete -> PyQueue.full (display_queue self) = true ->
  Handler_call self frame = ([PrintAcquired frame], Blocked).
Proof.
  intros H Hfull. unfold Handler_call, PyQueue.put.
  rewrite bool_decide_eq_true_2 by assumption. rewrite Hfull. reflexivity.
Qed.

Lemma call_cases (self : Handler) (frame : Frame) :
  Handler_call self frame = ([QueueFrame frame], Return self) \/
  Handler_call self frame =
    ([PrintAcquired frame; QueueFrame frame],
     Return (mkHandler (PyQueue.mkQueue (PyQueue.maxsize (display_queue self))
                          (PyQueue.items (display_queue self) ++ [frame])))) /\
    get_status frame = Complete /\ PyQueue.full (display_queue self) = false \/
  Handler_call self frame = ([PrintAcquired frame], Blocked).
Proof.
  destruct (decide (get_status frame = Complete)) as [Hc|Hc].
  - destruct (PyQueue.full (display_queue self)) eqn:Hfull.
    + right. right. apply call_complete_full; assumption.
    + right. left. split; [apply call_complete_room; assumption | tauto].
  - left. apply call_not_complete, Hc.
Qed.

(** A call that returns has requeued the frame exactly once. *)
Lemma roi_call_requeues_once (self self' : Handler) (frame : Frame) :
  result (Handler_call self frame) = Return self' ->
  queue_frame_count frame (trace (Handler_call self frame)) = 1%nat.
Proof.
  destruct (call_cases self frame) as [->|[(-> & _)| ->]]; simpl;
    try discriminate; intros _; unfold queue_frame_count; simpl;
    rewrite bool_decide_eq_true_2; reflexivity.
Qed.

Section Loop.
Variable Array Number : Type.
Variable convert_pixel_format : Frame -> PixelFormat -> option Frame.
Variable as_opencv_image : Frame -> option Array.
Variable as_numpy_ndarray : Frame -> Array.
Variable np_mean np_sum : Array -> Number.

Let process := process_frame Array Number convert_pixel_format as_opencv_image
                 as_numpy_ndarray np_mean np_sum.
Let step := Roi.step Array Number convert_pixel_format as_opencv_image
              as_numpy_ndarray np_mean np_sum.
Let steps := Roi.steps Array Number convert_pixel_format as_opencv_image
               as_numpy_ndarray np_mean np_sum.

Abbreviation queued s := (PyQueue.items (display_queue (handler s))).

(** *** The loop body *)

(** What the body does when both driver calls succeed: the converted
    frame appears nowhere. *)
Lemma process_frame_converted (frame d : Frame) (img : Array) :
  convert_pixel_format frame opencv_display_format = Some d ->
  as_opencv_image frame = Some img ->
  process frame =
    ([PrintArray (as_numpy_ndarray frame);
      PrintInfo (get_buffer_size frame) (np_mean (as_numpy_ndarray frame))
        (np_sum (as_numpy_ndarray frame));
      FileWrite (np_mean (as_numpy_ndarray frame)) (np_sum (as_numpy_ndarray frame));
      Imshow img],
     Return tt).
Proof.
  intros Hconv Himg. unfold process, process_frame. rewrite Hconv, Himg.
  destruct (bool_decide (get_pixel_format frame = opencv_display_format));
    reflexivity.
Qed.

(** *** Moves of the two threads *)

Lemma step_deliver (s s' : state Array Number) (frame : Frame) :
  step s (Deliver frame) = Some s' ->
  loc s' = loc s /\ taken s' = taken s /\ main_log s' = main_log s /\
  (queued s' = queued s /\ get_status frame <> Complete \/
   queued s' = queued s ++ [frame] /\ get_status frame = Complete /\
   PyQueue.full (display_queue (handler s)) = false).
Proof.
  unfold step, Roi.step. destruct (streaming (loc s)); [|discriminate].
  destruct (decide (get_status frame = Complete)) as [Hc|Hc].
  - destruct (PyQueue.full (display_queue (handler s))) eqn:Hfull.
    + rewrite call_complete_full by assumption. discriminate.
    + rewrite call_complete_room by assumption. intros [= <-]. simpl. tauto.
  - rewrite call_not_complete by assumption. intros [= <-]. simpl. tauto.
Qed.

Lemma step_get_image (s s' : state Array Number) :
  step s GetImage = Some s' ->
  loc s = AtGetImage /\
  exists frame, queued s = frame :: queued s' /\ taken s' = taken s ++ [frame].
Proof.
  unfold step, Roi.step, Handler_get_image, PyQueue.get.
  destruct (loc s); try discriminate.
  destruct (queued s) as [|frame rest]; [discriminate|].
  destruct (process_frame _ _ _ _ _ _ _ frame) as [tr [[]| |e|]];
    try discriminate; intros [= <-]; simpl; eauto.
Qed.

Lemma step_wait_key (s s' : state Array Number) (key : Z) :
  step s (WaitKey key) = Some s' ->
  loc s = AtWaitKey /\ handler s' = handler s /\ taken s' = taken s /\
  loc s' = (if key =? ENTER_KEY_CODE then Stopped else AtGetImage).
Proof.
  unfold step, Roi.step. destruct (loc s); try discriminate.
  destruct (key =? ENTER_KEY_CODE); intros [= <-]; simpl; tauto.
Qed.

Lemma steps_cons (s : state Array Number) (l : label) (ls : list label) s' :
  steps s (l :: ls) = Some s' ->
  exists s1, step s l = Some s1 /\ steps s1 ls = Some s'.
Proof.
  unfold steps, step. simpl.
  destruct (Roi.step _ _ _ _ _ _ _ s l) as [s1|]; [|discriminate]. eauto.
Qed.

(** Frames are only ever added to the frames taken. *)
Lemma taken_grows (ls : list label) (s s' : state Array Number) :
  steps s ls = Some s' -> exists more, taken s' = taken s ++ more.
Proof.
  revert s. induction ls as [|l ls IH]; intros s H.
  - injection H as <-. exists []. rewrite app_nil_r. reflexivity.
  - apply steps_cons in H. destruct H as (s1 & H1 & Hrest).
    destruct (IH _ Hrest) as (more & Hmore). rewrite Hmore.
    destruct l as [frame|key|].
    + apply step_deliver in H1. destruct H1 as (_ & -> & _). eauto.
    + apply step_wait_key in H1. destruct H1 as (_ & _ & -> & _). eauto.
    + apply step_get_image in H1. destruct H1 as (_ & frame & _ & ->).
      exists (frame :: more). rewrite <- app_assoc. reflexivity.
Qed.

(** While the main thread is inside [get_image] with nothing queued, it
    cannot move, whatever key is pressed. *)
Lemma blocked_cannot_move (s : state Array Number) (l : label) :
  loc s = AtGetImage -> queued s = [] -> is_deliver l = false ->
  step s l = None.
Proof.
  intros Hloc Hq Hl. destruct l as [frame|key|]; [discriminate| |];
    unfold step, Roi.step, Handler_get_image, PyQueue.get; rewrite Hloc;
    [reflexivity|]. rewrite Hq. reflexivity.
Qed.

(** From inside [get_image], the loop can only end after the frame at the
    head of the queue, or the next complete frame delivered, has been taken
    and run through the body. *)
Lemma leaving_get_image (ls : list label) (s s' : state Array Number) :
  loc s = AtGetImage -> steps s ls = Some s' -> loc s' = Stopped ->
  match queued s with
  | frame :: _ => exists more, taken s' = taken s ++ frame :: more
  | [] => exists frame more,
            Deliver frame ∈ ls /\ get_status frame = Complete /\
            taken s' = taken s ++ frame :: more
  end.
Proof.
  revert s. induction ls as [|l ls IH]; intros s Hloc H Hstop.
  - injection H as <-. rewrite Hloc in Hstop. discriminate.
  - apply steps_cons in H. destruct H as (s1 & H1 & Hrest).
    destruct l as [frame|key|].
    + apply step_deliver in H1.
      destruct H1 as (Hloc1 & Htaken & _ & [(Hq & _)|(Hq & Hc & _)]).
      * specialize (IH s1 (eq_trans Hloc1 Hloc) Hrest Hstop).
        rewrite Hq, Htaken in IH. destruct (queued s); [|exact IH].
        destruct IH as (f & more & Hin & Hf & Ht).
        exists f, more. split; [right; exact Hin | tauto].
      * specialize (IH s1 (eq_trans Hloc1 Hloc) Hrest Hstop).
        rewrite Hq, Htaken in IH. destruct (queued s); simpl in IH; [|exact IH].
        destruct IH as (more & Ht). exists frame, more.
        split; [left | tauto].
    + apply step_wait_key in H1. destruct H1 as (Hloc1 & _).
      rewrite Hloc in Hloc1. discriminate.
    + apply step_get_image in H1. destruct H1 as (_ & frame & Hq & Ht).
      rewrite Hq. destruct (taken_grows _ _ _ Hrest) as (more & Hmore).
      exists more. rewrite Hmore, Ht, <- app_assoc. reflexivity.
Qed.
End Loop.

End RoiFacts.

(** ** Frames, queue and shutdown across the scripts *)
Module Pipeline.

(** *** Sample frames and a sample driver *)

(** A complete BayerRG12 frame of 2x2 samples 100, 200, 300, 400. *)
Definition frame_2x2 : Frame :=
  mkFrame 1 Complete BayerRG12 2 2
    [Byte.x64; Byte.x00; Byte.xc8; Byte.x00; Byte.x2c; Byte.x01; Byte.x90; Byte.x01].

(** The same frame with the last byte of its buffer missing. *)
Definition frame_short : Frame :=
  mkFrame 2 Complete BayerRG12 2 2
    [Byte.x64; Byte.x00; Byte.xc8; Byte.x00; Byte.x2c; Byte.x01; Byte.x90].

(** An incomplete frame and a frame that already has the display format. *)
Definition frame_incomplete : Frame :=
  mkFrame 3 Incomplete BayerRG12 2 2 [].
Definition frame_bgr : Frame :=
  mkFrame 4 Complete Bgr8 1 1 [Byte.x0a; Byte.x14; Byte.x1e].

(** A driver for the examples: images are byte buffers, conversion only
    changes the format tag, sums and means are taken over the bytes. *)
Definition convert_sample (frame : Frame) (fmt : PixelFormat) : option Frame :=
  Some (mkFrame (get_id frame) (get_status frame) fmt (get_width frame)
          (get_height frame) (get_buffer frame)).
Definition image_sample (frame : Frame) : option (list Byte.byte) :=
  Some (get_buffer frame).
Definition sum_sample (a : list Byte.byte) : Z :=
  foldr (fun b acc => Z.of_N (Byte.to_N b) + acc) 0 a.
Definition mean_sample (a : list Byte.byte) : Z :=
  sum_sample a / Z.of_nat (length a).

Definition tiff_call_sample : Z -> Frame -> proc (Tiff.event (list Z)) unit :=
  Tiff.Handler_call (list Z) convert_sample (fun f => Some []) Np.flat.

Abbreviation roi_state := (Roi.state (list Byte.byte) Z).
Definition roi_step_sample : roi_state -> Roi.label -> option roi_state :=
  Roi.step (list Byte.byte) Z convert_sample image_sample get_buffer
    mean_sample sum_sample.
Definition roi_steps_sample : roi_state -> list Roi.label -> option roi_state :=
  Roi.steps (list Byte.byte) Z convert_sample image_sample get_buffer
    mean_sample sum_sample.

(** The main thread inside [get_image], nothing queued. *)
Definition blocked_sample : roi_state :=
  Roi.mkState Roi.Handler_init Roi.AtGetImage [] [] [].

(** *** C1 *)

(** C1 as stated fails in the TIFF script: when [cv2.waitKey] reports the
    ENTER key the callback returns without [queue_frame]. *)
Lemma shutdown_key_skips_requeue :
  result (tiff_call_sample ENTER_KEY_CODE frame_bgr) = Return tt /\
  Tiff.queue_frame_count frame_bgr (trace (tiff_call_sample ENTER_KEY_CODE frame_bgr))
    = 0%nat.
Proof. split; reflexivity. Qed.

(** An exception leaves the frame unqueued as well. *)
Example exception_skips_requeue :
  result (tiff_call_sample (-1) frame_short) = Raise (ValueError Np.frombuffer_error) /\
  Tiff.queue_frame_count frame_short (trace (tiff_call_sample (-1) frame_short))
    = 0%nat.
Proof. split; reflexivity. Qed.

(** C1, amended: a callback that returns without having seen the shutdown
    key has called [queue_frame] on its frame exactly once, whatever the
    frame status and the conversion branch, in the TIFF script and in the
    ROI script; the TIFF callback that sees the ENTER key sets the shutdown
    event and returns without [queue_frame]. *)
Theorem requeued_once_unless_shutdown
    (Image : Type) (convert_pixel_format : Frame -> PixelFormat -> option Frame)
    (as_opencv_image : Frame -> option Image) (cvtColor : Np.ndarray -> Image)
    (key : Z) (self : Roi.Handler) (frame : Frame) :
  let tiff := Tiff.Handler_call Image convert_pixel_format as_opencv_image
                cvtColor key frame in
  (key <> ENTER_KEY_CODE -> result tiff = Return tt ->
     Tiff.queue_frame_count frame (trace tiff) = 1%nat) /\
  (key = ENTER_KEY_CODE ->
     tiff = ([Tiff.ShutdownEventSet], Return tt) /\
     Tiff.queue_frame_count frame (trace tiff) = 0%nat) /\
  (forall self', result (Roi.Handler_call self frame) = Return self' ->
     Roi.queue_frame_count frame (trace (Roi.Handler_call self frame)) = 1%nat).
Proof.
  intros tiff. split; [|split].
  - apply TiffFacts.tiff_call_requeues_once.
  - intros ->. split; reflexivity.
  - intros self'. apply (RoiFacts.roi_call_requeues_once self self' frame).
Qed.

Lemma requeued_once_unless_shutdown_witness :
  Tiff.queue_frame_count frame_incomplete (trace (tiff_call_sample (-1) frame_incomplete))
    = 1%nat /\
  Tiff.queue_frame_count frame_bgr (trace (tiff_call_sample (-1) frame_bgr)) = 1%nat /\
  tiff_call_sample 13 frame_bgr = ([Tiff.ShutdownEventSet], Return tt) /\
  Roi.queue_frame_count frame_2x2 (trace (Roi.Handler_call Roi.Handler_init frame_2x2))
    = 1%nat.
Proof.
  pose proof (requeued_once_unless_shutdown (list Z) convert_sample
                (fun f => Some []) Np.flat) as T.
  destruct (T (-1) Roi.Handler_init frame_incomplete) as (T1 & _ & _).
  destruct (T (-1) Roi.Handler_init frame_bgr) as (T2 & _ & _).
  destruct (T 13 Roi.Handler_init frame_bgr) as (_ & T3 & _).
  destruct (T 13 Roi.Handler_init frame_2x2) as (_ & _ & T4).
  split; [|split; [|split]].
  - apply T1; [discriminate | reflexivity].
  - apply T2; [discriminate | reflexivity].
  - apply T3. reflexivity.
  - eapply T4. reflexivity.
Defined.

(** *** C2 *)

(** C2: the buffer of [frame_short] has 7 bytes where [2 * 2 * 2 = 8] are
    expected. [np.frombuffer] runs before the size test and raises its own
    [ValueError] for the odd length, so the descriptive error with the
    expected and the actual size is not the one raised. Nothing is
    demosaiced or written. *)
Theorem one_byte_short_raises_frombuffer_error
    (Image : Type) (as_opencv_image : Frame -> option Image)
    (cvtColor : Np.ndarray -> Image) (display : Frame) :
  get_buffer_size frame_short = 7%nat /\
  (get_width frame_short * get_height frame_short * 2)%nat = 8%nat /\
  Tiff.Handler_call Image (fun _ _ => Some display) as_opencv_image cvtColor
      (-1) frame_short
    = ([Tiff.PrintAcquired frame_short], Raise (ValueError Np.frombuffer_error)) /\
  ValueError Np.frombuffer_error <> ValueError (Tiff.size_mismatch_msg 8 7).
Proof. repeat split. discriminate. Qed.

(** For an even length the descriptive error is raised, with both numbers
    in its text. *)
Example two_bytes_short_raises_size_mismatch :
  result (tiff_call_sample (-1)
            (mkFrame 5 Complete BayerRG12 2 2
               [Byte.x64; Byte.x00; Byte.xc8; Byte.x00; Byte.x2c; Byte.x01]))
    = Raise (ValueError (Tiff.size_mismatch_msg 8 6)) /\
  Tiff.size_mismatch_msg 8 6
    = "原始数据大小与指定的宽度和高度不匹配。期望 8，实际 6".
Proof. split; reflexivity. Qed.

(** *** C4 *)

(** C4: the buffer of [frame_2x2] decodes to 100, 200, 300, 400 and has the
    expected 8 bytes, but after the reshape the callback reads the sample at
    row 100, column 100 for a print. On the 2x2 grid that is an
    [IndexError], so the shift by 4 is never reached and nothing is
    demosaiced or written. *)
Theorem small_frame_raises_before_shift
    (Image : Type) (as_opencv_image : Frame -> option Image)
    (cvtColor : Np.ndarray -> Image) (display : Frame) :
  Np.decode_uint16 (get_buffer frame_2x2) = [100; 200; 300; 400] /\
  get_buffer_size frame_2x2
    = (get_width frame_2x2 * get_height frame_2x2 * 2)%nat /\
  Tiff.Handler_call Image (fun _ _ => Some display) as_opencv_image cvtColor
      (-1) frame_2x2
    = ([Tiff.PrintAcquired frame_2x2], Raise IndexError).
Proof. repeat split. Qed.

(** *** C5 *)

(** C5 as stated fails: with the main thread inside [get_image] and nothing
    queued, no sequence of moves of the main thread, whatever key is
    pressed, ends the loop. *)
Lemma blocked_pop_not_woken_by_key :
  ~ exists (ls : list Roi.label) (s' : roi_state),
      Forall (fun l => Roi.is_deliver l = false) ls /\
      roi_steps_sample blocked_sample ls = Some s' /\
      Roi.loc s' = Roi.Stopped.
Proof.
  intros (ls & s' & Hmain & Hrun & Hstop). destruct ls as [|l ls].
  - injection Hrun as <-. discriminate Hstop.
  - inversion Hmain as [|? ? Hl _]; subst.
    unfold roi_steps_sample in Hrun. simpl in Hrun.
    rewrite (RoiFacts.blocked_cannot_move _ _ _ _ _ _ _ blocked_sample l) in Hrun
      by (reflexivity || exact Hl).
    discriminate Hrun.
Qed.

(** C5, amended: the ROI loop looks at the key only in [cv2.waitKey] at
    the top of an iteration; ENTER seen there ends the loop without a frame
    being taken. A [get_image] waiting on the empty queue is not woken by a
    key: the main thread cannot move, and if the loop ends later, a
    complete frame was delivered in between and was taken from the queue
    and processed first. *)
Theorem shutdown_seen_only_at_wait_key
    (Array Number : Type) (convert_pixel_format : Frame -> PixelFormat -> option Frame)
    (as_opencv_image : Frame -> option Array) (as_numpy_ndarray : Frame -> Array)
    (np_mean np_sum : Array -> Number) (s : Roi.state Array Number) :
  let step := Roi.step Array Number convert_pixel_format as_opencv_image
                as_numpy_ndarray np_mean np_sum in
  let steps := Roi.steps Array Number convert_pixel_format as_opencv_image
                 as_numpy_ndarray np_mean np_sum in
  (Roi.loc s = Roi.AtWaitKey ->
     exists s', step s (Roi.WaitKey ENTER_KEY_CODE) = Some s' /\
       Roi.loc s' = Roi.Stopped /\ Roi.handler s' = Roi.handler s /\
       Roi.taken s' = Roi.taken s) /\
  (Roi.loc s = Roi.AtGetImage ->
   PyQueue.items (Roi.display_queue (Roi.handler s)) = [] ->
     (forall l, Roi.is_deliver l = false -> step s l = None) /\
     (forall ls s', steps s ls = Some s' -> Roi.loc s' = Roi.Stopped ->
        exists frame more,
          Roi.Deliver frame ∈ ls /\ get_status frame = Complete /\
          Roi.taken s' = Roi.taken s ++ frame :: more)).
Proof.
  intros step steps. split.
  - intros Hloc. unfold step, Roi.step. rewrite Hloc. simpl.
    eexists. split; [reflexivity|]. simpl. tauto.
  - intros Hloc Hq. split.
    + intros l Hl. apply RoiFacts.blocked_cannot_move; assumption.
    + intros ls s' Hrun Hstop.
      pose proof (RoiFacts.leaving_get_image _ _ _ _ _ _ _ ls s s' Hloc Hrun Hstop)
        as H.
      rewrite Hq in H. exact H.
Qed.

Lemma shutdown_seen_only_at_wait_key_witness :
  (exists s', roi_step_sample Roi.start (Roi.WaitKey 13) = Some s' /\
     Roi.loc s' = Roi.Stopped /\ Roi.taken s' = []) /\
  roi_step_sample blocked_sample (Roi.WaitKey 13) = None /\
  (exists s', roi_steps_sample blocked_sample
                [Roi.Deliver frame_bgr; Roi.GetImage; Roi.WaitKey 13] = Some s' /\
     exists more, Roi.taken s' = frame_bgr :: more).
Proof.
  pose proof (shutdown_seen_only_at_wait_key (list Byte.byte) Z convert_sample
                image_sample get_buffer mean_sample sum_sample) as T.
  destruct (T Roi.start) as (T1 & _).
  destruct (T blocked_sample) as (_ & T2).
  destruct (T2 eq_refl eq_refl) as (Tkey & Tend).
  split; [|split].
  - destruct (T1 eq_refl) as (s' & Hs & Hl & _ & Ht). exists s'. tauto.
  - apply Tkey. reflexivity.
  - eexists. split; [reflexivity|].
    destruct (Tend [Roi.Deliver frame_bgr; Roi.GetImage; Roi.WaitKey 13] _ eq_refl eq_refl)
      as (frame & more & _ & _ & Ht).
    simpl. eauto.
Defined.

(** *** C6 in the running script *)

(** The delivered frames that the callback queues. *)
Definition complete_frames (ls : list Roi.label) : list Frame :=
  omap (fun l => match l with
                 | Roi.Deliver frame =>
                     if bool_decide (get_status frame = Complete) then Some frame
                     else None
                 | _ => None
                 end) ls.

Section RoiQueue.
Variable Array Number : Type.
Variable convert_pixel_format : Frame -> PixelFormat -> option Frame.
Variable as_opencv_image : Frame -> option Array.
Variable as_numpy_ndarray : Frame -> Array.
Variable np_mean np_sum : Array -> Number.

Let steps := Roi.steps Array Number convert_pixel_format as_opencv_image
               as_numpy_ndarray np_mean np_sum.

Abbreviation queue_of s := (Roi.display_queue (Roi.handler s)).

Lemma roi_queue_step (ls : list Roi.label) (s s' : Roi.state Array Number) :
  PyQueue.maxsize (queue_of s) = 10 ->
  (length (PyQueue.items (queue_of s)) <= 10)%nat ->
  steps s ls = Some s' ->
  PyQueue.maxsize (queue_of s') = 10 /\
  (length (PyQueue.items (queue_of s')) <= 10)%nat /\
  Roi.taken s' ++ PyQueue.items (queue_of s')
    = Roi.taken s ++ PyQueue.items (queue_of s) ++ complete_frames ls.
Proof.
  revert s. induction ls as [|l ls IH]; intros s Hmax Hlen Hrun.
  - injection Hrun as <-. simpl. rewrite app_nil_r. tauto.
  - apply RoiFacts.steps_cons in Hrun. destruct Hrun as (s1 & H1 & Hrest).
    destruct l as [frame|key|].
    + pose proof H1 as H1'. apply RoiFacts.step_deliver in H1.
      destruct H1 as (_ & Ht & _ & Hq).
      assert (Hmax1 : PyQueue.maxsize (queue_of s1) = 10).
      { unfold Roi.step in H1'. destruct (Roi.streaming (Roi.loc s)); [|discriminate].
        destruct (RoiFacts.call_cases (Roi.handler s) frame) as [Hc|[(Hc & _)|Hc]];
          rewrite Hc in H1'; try discriminate; injection H1' as <-; simpl; assumption. }
      destruct Hq as [(Hq & Hc)|(Hq & Hc & Hfull)].
      * destruct (IH s1 Hmax1) as (? & ? & Hfifo); [rewrite Hq; assumption|assumption|].
        split; [assumption|]. split; [assumption|].
        rewrite Hfifo, Ht, Hq. simpl. rewrite bool_decide_eq_false_2 by assumption.
        reflexivity.
      * destruct (IH s1 Hmax1) as (? & ? & Hfifo); [|assumption|].
        { rewrite Hq, length_app. simpl.
          unfold PyQueue.full, PyQueue.qsize in Hfull. rewrite Hmax in Hfull.
          simpl in Hfull. apply Z.leb_gt in Hfull. lia. }
        split; [assumption|]. split; [assumption|].
        rewrite Hfifo, Ht, Hq. simpl. rewrite bool_decide_eq_true_2 by assumption.
        rewrite <- !app_assoc. reflexivity.
    + apply RoiFacts.step_wait_key in H1. destruct H1 as (_ & Hh & Ht & _).
      destruct (IH s1) as (? & ? & Hfifo); [rewrite Hh; assumption..|assumption|].
      rewrite Hfifo, Hh, Ht. tauto.
    + pose proof H1 as H1'. apply RoiFacts.step_get_image in H1.
      destruct H1 as (_ & frame & Hq & Ht).
      assert (Hmax1 : PyQueue.maxsize (queue_of s1) = 10).
      { unfold Roi.step, Roi.Handler_get_image, PyQueue.get in H1'.
        destruct (Roi.loc s); try discriminate.
        destruct (PyQueue.items (queue_of s)); [discriminate|].
        destruct (Roi.process_frame _ _ _ _ _ _ _ _) as [tr [[]| |e|]];
          try discriminate; injection H1' as <-; simpl; assumption. }
      destruct (IH s1 Hmax1) as (? & ? & Hfifo); [|assumption|].
      { rewrite Hq in Hlen. simpl in Hlen. lia. }
      split; [assumption|]. split; [assumption|].
      rewrite Hfifo, Ht, Hq. simpl. rewrite <- app_assoc. reflexivity.
Qed.

(** X19: in every run of the ROI script the display queue holds at most 10
    frames, and the frames the loop has taken, followed by the frames still
    queued, are the complete frames in the order of their delivery. *)
Lemma roi_display_queue_bounded_fifo (ls : list Roi.label) (s : Roi.state Array Number) :
  steps Roi.start ls = Some s ->
  (length (PyQueue.items (queue_of s)) <= 10)%nat /\
  Roi.taken s ++ PyQueue.items (queue_of s) = complete_frames ls.
Proof.
  intros Hrun.
  destruct (roi_queue_step ls Roi.start s) as (_ & Hlen & Hfifo);
    [reflexivity | simpl; lia | exact Hrun |].
  split; assumption.
Qed.
End RoiQueue.

(** *** C9 *)

(** The driver's [as_opencv_image] for the examples: it gives a view of the
    frames whose format OpenCV takes as it is, of the formats named here
    [Mono8], [Mono16] and [Bgr8], and raises for the others. *)
Definition opencv_view_sample (frame : Frame) : option (list Byte.byte) :=
  match get_pixel_format frame with
  | Mono8 | Mono16 | Bgr8 => Some (get_buffer frame)
  | _ => None
  end.

(** A complete Mono8 frame of 2x2 pixels 10, 20, 30, 40. *)
Definition frame_mono8 : Frame :=
  mkFrame 6 Complete Mono8 2 2 [Byte.x0a; Byte.x14; Byte.x1e; Byte.x28].

Definition roi_body_sample : Frame -> proc (Roi.loop_event (list Byte.byte) Z) unit :=
  Roi.process_frame (list Byte.byte) Z convert_sample opencv_view_sample get_buffer
    mean_sample sum_sample.

(** C9 as stated fails: the BayerRG12 frame is not in the display format
    and its conversion succeeds, but the loop then asks the original frame
    for its OpenCV view, which the driver refuses for this format. The body
    ends with the [ValueError]: no image is displayed and no mean or sum
    is logged, from the original frame or otherwise. *)
Lemma unviewable_frame_not_displayed :
  get_pixel_format frame_2x2 <> opencv_display_format /\
  convert_sample frame_2x2 opencv_display_format
    = Some (mkFrame 1 Complete Bgr8 2 2 (get_buffer frame_2x2)) /\
  roi_body_sample frame_2x2 = ([], Raise (ValueError Tiff.opencv_error)) /\
  Roi.displayed (trace (roi_body_sample frame_2x2)) = [] /\
  Roi.logged (trace (roi_body_sample frame_2x2)) = [].
Proof. split; [discriminate|]. repeat split. Qed.

(** The loop body when the original frame has no OpenCV view. *)
Lemma process_frame_no_view
    (Array Number : Type) (convert_pixel_format : Frame -> PixelFormat -> option Frame)
    (as_opencv_image : Frame -> option Array) (as_numpy_ndarray : Frame -> Array)
    (np_mean np_sum : Array -> Number) (frame d : Frame) :
  convert_pixel_format frame opencv_display_format = Some d ->
  as_opencv_image frame = None ->
  Roi.process_frame Array Number convert_pixel_format as_opencv_image
    as_numpy_ndarray np_mean np_sum frame
  = ([], Raise (ValueError Tiff.opencv_error)).
Proof.
  intros Hconv Himg. unfold Roi.process_frame. rewrite Hconv, Himg.
  destruct (bool_decide (get_pixel_format frame = opencv_display_format));
    reflexivity.
Qed.

(** C9, amended: take a frame that is not in the display format. If its
    conversion succeeds, the converted copy is used nowhere: the loop body
    does exactly what it does when the conversion hands back the frame
    itself. If the driver gives an OpenCV view of the original frame, that
    view is the image displayed, and the mean and sum logged are those of
    the original frame; if the driver gives none, the body raises
    [ValueError] and nothing is displayed or logged. If the conversion
    fails, the body raises [ValueError] as well, before anything is
    displayed or logged. *)
Theorem converted_copy_unused
    (Array Number : Type) (convert_pixel_format : Frame -> PixelFormat -> option Frame)
    (as_opencv_image : Frame -> option Array) (as_numpy_ndarray : Frame -> Array)
    (np_mean np_sum : Array -> Number) (frame : Frame) :
  let body := Roi.process_frame Array Number convert_pixel_format as_opencv_image
                as_numpy_ndarray np_mean np_sum frame in
  get_pixel_format frame <> opencv_display_format ->
  (forall d, convert_pixel_format frame opencv_display_format = Some d ->
     body = Roi.process_frame Array Number (fun f _ => Some f) as_opencv_image
              as_numpy_ndarray np_mean np_sum frame /\
     (forall img, as_opencv_image frame = Some img ->
        result body = Return tt /\
        Roi.displayed (trace body) = [img] /\
        Roi.logged (trace body)
          = [(np_mean (as_numpy_ndarray frame), np_sum (as_numpy_ndarray frame))]) /\
     (as_opencv_image frame = None ->
        body = ([], Raise (ValueError Tiff.opencv_error)))) /\
  (convert_pixel_format frame opencv_display_format = None ->
     body = ([], Raise (ValueError Tiff.conversion_error))).
Proof.
  intros body Hfmt. unfold body. split.
  - intros d Hconv. split; [|split].
    + destruct (as_opencv_image frame) as [img|] eqn:Himg.
      * rewrite (RoiFacts.process_frame_converted _ _ _ _ _ _ _ frame d img Hconv Himg).
        rewrite (RoiFacts.process_frame_converted _ _ (fun f _ => Some f) _ _ _ _
                   frame frame img eq_refl Himg).
        reflexivity.
      * rewrite (process_frame_no_view _ _ _ _ _ _ _ frame d Hconv Himg).
        rewrite (process_frame_no_view _ _ (fun f _ => Some f) _ _ _ _
                   frame frame eq_refl Himg).
        reflexivity.
    + intros img Himg.
      rewrite (RoiFacts.process_frame_converted _ _ _ _ _ _ _ frame d img Hconv Himg).
      repeat split.
    + intros Himg. exact (process_frame_no_view _ _ _ _ _ _ _ frame d Hconv Himg).
  - intros Hconv. unfold Roi.process_frame.
    rewrite bool_decide_eq_false_2 by exact Hfmt. rewrite Hconv. reflexivity.
Qed.

Lemma converted_copy_unused_witness :
  Roi.displayed (trace (roi_body_sample frame_mono8)) = [get_buffer frame_mono8] /\
  Roi.logged (trace (roi_body_sample frame_mono8)) = [(25, 100)] /\
  roi_body_sample frame_2x2 = ([], Raise (ValueError Tiff.opencv_error)).
Proof.
  pose proof (converted_copy_unused (list Byte.byte) Z convert_sample
                opencv_view_sample get_buffer mean_sample sum_sample) as T.
  destruct (T frame_mono8 ltac:(discriminate)) as (Tmono & _).
  destruct (Tmono (mkFrame 6 Complete Bgr8 2 2 (get_buffer frame_mono8)) eq_refl)
    as (_ & Tview & _).
  destruct (Tview (get_buffer frame_mono8) eq_refl) as (_ & Hshow & Hlog).
  destruct (T frame_2x2 ltac:(discriminate)) as (Tbayer & _).
  destruct (Tbayer (mkFrame 1 Complete Bgr8 2 2 (get_buffer frame_2x2)) eq_refl)
    as (_ & _ & Tnone).
  split; [exact Hshow|]. split; [exact Hlog | exact (Tnone eq_refl)].
Defined.

End Pipeline.

(** * Further properties of the scripts *)

(** ** Command line: what [parse_args] returns *)
Module CliMore.
Import Cli.

Definition help_flag (arg : string) : Prop := arg = "/h" \/ arg = "-h".

#[local] Instance help_flag_dec (arg : string) : Decision (help_flag arg).
Proof. unfold help_flag. apply _. Defined.

(** X1: [parse_args] returns exactly when there is at most one argument and no
    help flag; it then prints nothing and yields the argument, if any. It
    never returns with two or more arguments. *)
Theorem parse_args_returns_iff (args : list string) (r : option string) :
  result (parse_args args) = Return r <->
  (length args <= 1)%nat /\
  (forall arg, arg ∈ args -> arg <> "/h" /\ arg <> "-h") /\
  r = head args /\ trace (parse_args args) = [].
Proof.
  destruct (decide (Exists help_flag args)) as [Hh|Hno].
  - apply Exists_exists in Hh. destruct Hh as (arg & Hin & Hh).
    assert (Hex : exists a, a ∈ args /\ (a = "/h" \/ a = "-h")) by eauto.
    rewrite (CliFacts.parse_args_help args Hex). simpl. split; [discriminate|].
    intros (_ & Hnone & _). destruct (Hnone arg Hin) as [H1 H2].
    destruct Hh; contradiction.
  - assert (Hnone : forall arg, arg ∈ args -> arg <> "/h" /\ arg <> "-h").
    { intros arg Hin. split; intros ->; apply Hno, Exists_exists;
        eexists; (split; [exact Hin|]); [left | right]; reflexivity. }
    destruct args as [|a [|b rest]].
    + simpl. split.
      * intros [= <-]. split; [simpl; lia|]. split; [exact Hnone|]. split; reflexivity.
      * intros (_ & _ & -> & _). reflexivity.
    + rewrite (CliFacts.parse_args_one a); [|apply Hnone; left..]. simpl. split.
      * intros [= <-]. split; [simpl; lia|]. split; [exact Hnone|]. split; reflexivity.
      * intros (_ & _ & -> & _). reflexivity.
    + rewrite (CliFacts.parse_args_too_many (a :: b :: rest)); [|simpl; lia|exact Hnone].
      simpl. split; [discriminate|]. intros (Hlen & _). lia.
Qed.

(** An empty string as camera identifier counts as no identifier: the
    first enumerated camera is taken, the driver is not asked for [''] . *)
Theorem empty_identifier_selects_first
    (cams : list Camera) (by_id : string -> option Camera) :
  main_get_camera cams by_id [""] = main_get_camera cams by_id [].
Proof. reflexivity. Qed.

(** X2: a known identifier selects its camera without any output, whatever the
    enumeration holds. *)
Theorem known_identifier_selects_camera
    (cams : list Camera) (by_id : string -> option Camera) (id : string) (cam : Camera) :
  id <> "/h" -> id <> "-h" -> id <> "" -> by_id id = Some cam ->
  main_get_camera cams by_id [id] = ([], Return cam).
Proof.
  intros H1 H2 H3 Hid. unfold main_get_camera.
  rewrite (CliFacts.parse_args_one id H1 H2), bind_return. simpl.
  unfold get_camera, truthy. rewrite bool_decide_eq_false_2 by assumption.
  simpl. rewrite Hid. reflexivity.
Qed.

Lemma known_identifier_selects_camera_witness :
  main_get_camera [] (fun id => if bool_decide (id = "DEV_B") then Some CliFacts.cam_b else None)
    ["DEV_B"] = ([], Return CliFacts.cam_b).
Proof.
  apply (known_identifier_selects_camera [] _ "DEV_B" CliFacts.cam_b);
    (discriminate || reflexivity).
Defined.

End CliMore.

(** ** The array operations on all inputs *)
Module NpMore.
Import Np.

(** X3: on any [uint16] sample the shift keeps the low 12 bits, moved up by 4,
    and drops the high 4 bits; the result is again a [uint16] value. *)
Theorem shl4_u16_keeps_low_12_bits (v : Z) :
  0 <= v < 65536 ->
  shl4_u16 v = (v mod 4096) * 16 /\ 0 <= shl4_u16 v < 65536.
Proof.
  intros Hv. unfold shl4_u16.
  change 65535 with (Z.ones 16). rewrite Z.land_ones by lia.
  rewrite Z.shiftl_mul_pow2 by lia.
  change (2 ^ 4) with 16. change (2 ^ 16) with (4096 * 16).
  rewrite Z.mul_mod_distr_r by lia.
  pose proof (Z.mod_pos_bound v 4096 ltac:(lia)). lia.
Qed.

Lemma shl4_u16_keeps_low_12_bits_witness :
  shl4_u16 4097 = (4097 mod 4096) * 16 /\ 0 <= shl4_u16 4097 < 65536.
Proof. apply (shl4_u16_keeps_low_12_bits 4097). lia. Defined.

Lemma decode_uint16_range (buf : list Byte.byte) :
  Forall (fun v => 0 <= v < 65536) (decode_uint16 buf).
Proof.
  induction buf as [buf IH] using (induction_ltof1 _ (@length _)); unfold ltof in IH.
  destruct buf as [|lo [|hi rest]]; simpl; try constructor.
  - pose proof (Byte.to_N_bounded lo). pose proof (Byte.to_N_bounded hi). lia.
  - apply IH. simpl. lia.
Qed.

(** [np.frombuffer] on a buffer of even length returns half as many
    samples, each a [uint16] value; on a buffer of odd length it raises its
    [ValueError]. *)
Theorem frombuffer_even_or_error (buf : list Byte.byte) :
  (Nat.Even (length buf) ->
     exists samples, @frombuffer unit buf = ret samples /\
       (2 * length samples = length buf)%nat /\
       Forall (fun v => 0 <= v < 65536) samples) /\
  (Nat.Odd (length buf) ->
     @frombuffer unit buf = raise (ValueError frombuffer_error)).
Proof.
  unfold frombuffer. split.
  - intros [n Hn]. exists (decode_uint16 buf).
    rewrite Hn, Nat.mul_comm, Nat.Div0.mod_mul. simpl.
    split; [reflexivity|]. split; [|apply decode_uint16_range].
    rewrite (NpFacts.decode_uint16_length n buf Hn). lia.
  - intros [n Hn]. rewrite Hn.
    replace (2 * n + 1)%nat with (1 + n * 2)%nat by lia.
    rewrite Nat.Div0.mod_add. reflexivity.
Qed.

Lemma frombuffer_even_or_error_witness :
  (exists samples, @frombuffer unit [Byte.x2c; Byte.x01] = ret samples /\
     (2 * length samples = 2)%nat /\ Forall (fun v => 0 <= v < 65536) samples) /\
  @frombuffer unit [Byte.x2c] = raise (ValueError frombuffer_error).
Proof.
  split.
  - apply (frombuffer_even_or_error [Byte.x2c; Byte.x01]). exists 1%nat. reflexivity.
  - apply (frombuffer_even_or_error [Byte.x2c]). exists 0%nat. reflexivity.
Defined.

Lemma reshape_row_major_witness :
  tolist (mkArray 2 3 [1; 2; 3; 4; 5; 6]) !! 1%nat ≫= (fun row => row !! 2%nat)
    = Some 6.
Proof.
  destruct (@NpFacts.reshape_row_major unit [1; 2; 3; 4; 5; 6] 2 3 eq_refl)
    as (_ & _ & _ & Hrow).
  rewrite (Hrow 1%nat 2%nat) by lia. reflexivity.
Defined.

End NpMore.

(** ** Negotiation: edge of the mono fallback and soundness *)
Module NegotiationMore.
Import NegotiationFacts.

Section Tables.
Variable COLOR MONO : list PixelFormat.
Variable inter : list PixelFormat -> list PixelFormat -> list PixelFormat.
Variable conv : PixelFormat -> list PixelFormat.
Variable cam : Camera.

Let fmts := get_pixel_formats cam.
Let colors := inter fmts COLOR.
Let monos := inter fmts MONO.
Let ok := Tiff.convertible conv.
Let tiff := Tiff.setup_pixel_format COLOR MONO inter conv cam.
Let roi := Roi.setup_pixel_format COLOR MONO inter conv cam.

(** X13: in the ROI script, a camera whose only candidates are one or two
    convertible mono formats gets no format at all: the index 2 is out of
    range and the negotiation ends with [IndexError]. *)
Theorem roi_mono_fallback_needs_three :
  opencv_display_format ∉ fmts -> (forall c, c ∈ colors -> ok c = false) ->
  (0 < length (List.filter ok monos) < 3)%nat ->
  result roi = Raise IndexError /\ selected roi = [].
Proof.
  intros H Hc Hlen. apply filter_nil_none in Hc.
  unfold roi, Roi.setup_pixel_format, tuple_get. fold fmts colors monos.
  rewrite bool_decide_eq_false_2 by exact H.
  change (Roi.convertible conv) with ok. rewrite Hc. simpl.
  destruct (List.filter ok monos) as [|f0 [|f1 [|f2 rest]]]; simpl in Hlen;
    try lia; split; reflexivity.
Qed.

(** The library's intersection yields formats of its first argument. *)
Hypothesis inter_sub : forall a b f, f ∈ inter a b -> f ∈ a.

Lemma filter_elem (l : list PixelFormat) (f : PixelFormat) :
  f ∈ List.filter ok l -> f ∈ l /\ ok f = true.
Proof.
  intros Hin. apply list_elem_of_In, List.filter_In in Hin.
  destruct Hin as [Hin Hok]. split; [apply list_elem_of_In, Hin | exact Hok].
Qed.

Lemma lookup_filter_elem (l : list PixelFormat) (i : nat) (f : PixelFormat) :
  List.filter ok l !! i = Some f -> f ∈ l /\ ok f = true.
Proof. intros H. apply filter_elem. eapply list_elem_of_lookup_2, H. Qed.

(** X14: whatever either negotiation hands to [set_pixel_format] is a format of
    the camera, and it is the display format or convertible to it. *)
Theorem selected_format_is_usable (f : PixelFormat) :
  f ∈ selected tiff \/ f ∈ selected roi ->
  f ∈ fmts /\ (f = opencv_display_format \/ ok f = true).
Proof using inter_sub.
  unfold tiff, roi, Tiff.setup_pixel_format, Roi.setup_pixel_format, tuple_get.
  fold fmts colors monos.
  change (Roi.convertible conv) with ok. change (Tiff.convertible conv) with ok.
  destruct (bool_decide (opencv_display_format ∈ fmts)) eqn:Hnat.
  - apply bool_decide_eq_true_1 in Hnat. simpl.
    intros [Hin|Hin]; apply list_elem_of_In in Hin; simpl in Hin;
      destruct Hin as [<-|[]]; auto.
  - destruct (List.filter ok colors) as [|c0 crest] eqn:Hcol; simpl.
    + destruct (List.filter ok monos) as [|m0 [|m1 [|m2 mrest]]] eqn:Hmono; simpl;
        intros [Hin|Hin]; apply list_elem_of_In in Hin; simpl in Hin;
        try contradiction; destruct Hin as [<-|[]].
      all: try (destruct (lookup_filter_elem monos 0 m0) as [Hm Hok];
                [rewrite Hmono; reflexivity|];
                split; [exact (inter_sub _ _ _ Hm) | right; exact Hok]).
      destruct (lookup_filter_elem monos 2 m2) as [Hm Hok];
        [rewrite Hmono; reflexivity|].
      split; [exact (inter_sub _ _ _ Hm) | right; exact Hok].
    + intros [Hin|Hin]; apply list_elem_of_In in Hin; simpl in Hin;
        destruct Hin as [<-|[]];
        (destruct (lookup_filter_elem colors 0 c0) as [Hm Hok];
         [rewrite Hcol; reflexivity|];
         split; [exact (inter_sub _ _ _ Hm) | right; exact Hok]).
Qed.
End Tables.

Lemma roi_mono_fallback_needs_three_witness :
  result (Roi.setup_pixel_format COLOR_sample MONO_sample inter_sample conv_sample
            (cam_of [Mono8; Mono12])) = Raise IndexError.
Proof.
  refine (proj1 (roi_mono_fallback_needs_three COLOR_sample MONO_sample inter_sample
                   conv_sample (cam_of [Mono8; Mono12]) _ _ _)).
  - apply (bool_decide_eq_false_1 (opencv_display_format ∈ [Mono8; Mono12])).
    reflexivity.
  - intros c Hc. apply list_elem_of_In in Hc. destruct Hc.
  - simpl. lia.
Defined.

Lemma inter_sample_sub (a b : list PixelFormat) (f : PixelFormat) :
  f ∈ inter_sample a b -> f ∈ a.
Proof.
  intros H. apply list_elem_of_In, List.filter_In in H.
  apply list_elem_of_In. tauto.
Defined.

Lemma selected_format_is_usable_witness :
  Mono12 ∈ get_pixel_formats (cam_of [Mono8; Mono10; Mono12]) /\
  (Mono12 = opencv_display_format \/ Tiff.convertible conv_sample Mono12 = true).
Proof.
  apply (selected_format_is_usable COLOR_sample MONO_sample inter_sample conv_sample
           (cam_of [Mono8; Mono10; Mono12]) inter_sample_sub Mono12).
  right. apply list_elem_of_In. simpl. tauto.
Defined.

End NegotiationMore.

(** ** Camera setup: what one failure takes with it *)
Module SetupMore.
Import SetupFacts.

(** Effects that do not set a feature other than [ExposureAuto]. *)
Definition sets_only_auto (e : effect) : Prop :=
  match e with
  | Did (FeatureSet name _) => name = "ExposureAuto"
  | _ => True
  end.

Lemma sets_only_auto_op (cam : Camera) (o : op) :
  sets_only_auto (Did o) -> Forall sets_only_auto (trace (feature_op cam o)).
Proof.
  intros Ho. unfold feature_op. destruct (supports cam o); simpl;
    repeat constructor. exact Ho.
Qed.

Lemma sets_only_auto_wait (n : nat) : Forall sets_only_auto (trace (wait_done n)).
Proof.
  induction n as [|n IH]; [repeat constructor|].
  change (wait_done (S n)) with (emit (IsDone false) ;;; wait_done n).
  apply Forall_trace_bind; [repeat constructor | intros _; exact IH].
Qed.

(** X15: in the ROI script the exposure time, the region of interest and the
    frame rate share one [try] block: if the camera has no [ExposureTime]
    feature, none of them is set, the block reports [ERROR2], and the
    function still returns. *)
Theorem roi_missing_exposure_skips_roi_and_rate (cam : Camera) :
  supports cam (GetFeatureByName "ExposureTime") = false ->
  result (Roi.setup_camera cam) = Return tt /\
  (Print "ERROR2: <class 'vmbpy.error.VmbFeatureError'>" ∈ trace (Roi.setup_camera cam)) /\
  (forall name v, Did (FeatureSet name v) ∈ trace (Roi.setup_camera cam) ->
     name = "ExposureAuto").
Proof.
  intros Hfail. split; [apply roi_setup_camera_returns|].
  unfold Roi.setup_camera.
  set (b1 := try_except _ (emit (Print "ERROR1: <class 'vmbpy.error.VmbFeatureError'>"))).
  set (b2 := try_except _ (emit (Print "ERROR2: <class 'vmbpy.error.VmbFeatureError'>"))).
  set (b3 := try_except _ (ret tt)).
  assert (H1 : result b1 = Return tt)
    by (apply try_except_returns;
        [apply guarded_bind; [|intros _]; apply guarded_feature_op | reflexivity]).
  assert (T1 : Forall sets_only_auto (trace b1)).
  { apply Forall_trace_try; [|repeat constructor].
    apply Forall_trace_bind; [|intros _]; apply sets_only_auto_op; simpl; auto. }
  assert (T3 : Forall sets_only_auto (trace b3)).
  { apply Forall_trace_try; [|constructor].
    repeat (apply Forall_trace_bind; [|intros _]);
      try apply sets_only_auto_op; try apply sets_only_auto_wait; exact I. }
  assert (H2 : b2 = ([Print "ERROR2: <class 'vmbpy.error.VmbFeatureError'>"], Return tt)).
  { subst b2. unfold feature_op at 1. rewrite Hfail. reflexivity. }
  rewrite H2. clearbody b1 b3. clear b2 H2.
  destruct b1 as [tr1 r1]. simpl in H1, T1. subst r1.
  rewrite bind_return, bind_return. unfold trace at 1 2. cbn [fst app].
  split.
  - apply elem_of_app. right. left.
  - intros name v Hin.
    assert (Hall : Forall sets_only_auto
                     (tr1 ++ Print "ERROR2: <class 'vmbpy.error.VmbFeatureError'>"
                          :: trace b3)).
    { apply Forall_app. split; [exact T1|]. constructor; [exact I | exact T3]. }
    rewrite Forall_forall in Hall. exact (Hall _ Hin).
Qed.

Lemma roi_missing_exposure_skips_roi_and_rate_witness :
  result (Roi.setup_camera cam_plain) = Return tt /\
  (Print "ERROR2: <class 'vmbpy.error.VmbFeatureError'>"
     ∈ trace (Roi.setup_camera cam_plain)).
Proof.
  destruct (roi_missing_exposure_skips_roi_and_rate cam_plain eq_refl) as (H1 & H2 & _).
  split; assumption.
Defined.

End SetupMore.

(** ** The TIFF callback, branch by branch *)
Module TiffMore.
Import Tiff.

Lemma string_length_app (a b : string) :
  String.length (a +:+ b) = (String.length a + String.length b)%nat.
Proof. induction a as [|c a IH]; simpl; [|rewrite IH]; reflexivity. Qed.

Lemma string_app_cancel_r (a b s : string) : a +:+ s = b +:+ s -> a = b.
Proof.
  revert b. induction a as [|c a IH]; intros [|c' b] H.
  - reflexivity.
  - apply (f_equal String.length) in H.
    rewrite !string_length_app in H. simpl in H. lia.
  - apply (f_equal String.length) in H.
    rewrite !string_length_app in H. simpl in H. lia.
  - change (String c (a +:+ s) = String c' (b +:+ s)) in H.
    injection H as -> H. rewrite (IH b H). reflexivity.
Qed.

(** The paths handed to [cv2.imwrite]. *)
Definition written_paths {Image} (tr : list (event Image)) : list string :=
  omap (fun e => match e with Imwrite path _ => Some path | _ => None end) tr.

Section Driver.
Variable Image : Type.
Variable convert_pixel_format : Frame -> PixelFormat -> option Frame.
Variable as_opencv_image : Frame -> option Image.
Variable cvtColor : Np.ndarray -> Image.

Let call := Handler_call Image convert_pixel_format as_opencv_image cvtColor.
Let to_tiff := bayer_to_tiff Image convert_pixel_format cvtColor.

(** X5: a frame that is not complete is handed back to the driver and nothing
    else happens: no print, no conversion, no window, no file. *)
Theorem incomplete_frame_only_requeued (key : Z) (frame : Frame) :
  key <> ENTER_KEY_CODE -> get_status frame <> Complete ->
  call key frame = ([QueueFrame frame], Return tt).
Proof.
  intros Hkey Hst. unfold call, Handler_call.
  rewrite (proj2 (Z.eqb_neq _ _) Hkey).
  rewrite bool_decide_eq_false_2 by assumption. reflexivity.
Qed.


(** X7: only the ENTER key sets the shutdown event: no frame, whatever its
    status, format or buffer, makes the callback set it. *)
Theorem shutdown_event_only_by_enter (key : Z) (frame : Frame) :
  ShutdownEventSet ∈ trace (call key frame) <-> key = ENTER_KEY_CODE.
Proof.
  split.
  - intros Hin. destruct (decide (key = ENTER_KEY_CODE)) as [|Hkey]; [assumption|].
    exfalso. unfold call in Hin.
    rewrite (TiffFacts.call_unfold _ _ _ _ key frame Hkey), trace_bind in Hin.
    assert (Hbody : Forall (fun e => e <> ShutdownEventSet)
                      (trace (TiffFacts.body Image convert_pixel_format
                                as_opencv_image cvtColor frame))).
    { unfold TiffFacts.body, bayer_to_tiff, convert, opencv_image, Np.frombuffer,
        Np.reshape, Np.getitem.
      repeat case_match;
        repeat (apply Forall_trace_bind; [|intros ?]);
        repeat case_match; repeat constructor; discriminate. }
    rewrite Forall_forall in Hbody.
    destruct (result (TiffFacts.body _ _ _ _ frame)); try (exact (Hbody _ Hin eq_refl)).
    apply elem_of_app in Hin. destruct Hin as [Hin|Hin].
    + exact (Hbody _ Hin eq_refl).
    + apply list_elem_of_In in Hin. simpl in Hin. destruct Hin as [Hin|[]].
      discriminate Hin.
  - intros ->. left.
Qed.


(** X9: with a buffer of the right length, a frame of height or width at most
    200 ends the Bayer path with [IndexError] at the probes of rows and
    columns 100 and 200, before anything is printed, shifted or written. *)
Theorem small_frame_index_error (frame display : Frame) :
  convert_pixel_format frame opencv_display_format = Some display ->
  get_buffer_size frame = (get_width frame * get_height frame * 2)%nat ->
  (get_height frame <= 200)%nat \/ (get_width frame <= 200)%nat ->
  to_tiff frame = ([], Raise IndexError).
Proof.
  intros Hconv Hsize Hsmall.
  pose proof (TiffFacts.second_check_dead frame Hsize) as Hlen.
  set (raw := Np.mkArray (get_height frame) (get_width frame)
                (Np.decode_uint16 (get_buffer frame))).
  assert (Hraw : length (Np.flat raw) = (Np.rows raw * Np.cols raw)%nat)
    by (simpl; lia).
  unfold to_tiff, bayer_to_tiff, convert, Np.frombuffer, Np.reshape.
  rewrite Hconv. fold (get_buffer_size frame).
  assert (Heven : (get_buffer_size frame mod 2 =? 0)%nat = true).
  { apply Nat.eqb_eq. rewrite Hsize. apply Nat.Div0.mod_mul. }
  rewrite Heven. cbn [bind ret app].
  rewrite (proj2 (Nat.eqb_eq _ _) Hsize). cbn [negb bind ret app].
  assert (Hlen' : length (Np.decode_uint16 (get_buffer frame))
                  = (get_height frame * get_width frame)%nat) by lia.
  rewrite (proj2 (Nat.eqb_eq _ _) Hlen), (proj2 (Nat.eqb_eq _ _) Hlen').
  cbn [negb bind ret app]. fold raw.
  destruct (decide (0 < get_height frame /\ 0 < get_width frame)%nat) as [[H0 W0]|Hz].
  - destruct (@NpFacts.getitem_in_range (event Image) raw 0 0 Hraw)
      as (p1 & Hp1 & _); [simpl; lia..|].
    rewrite Hp1. cbn [bind ret app].
    destruct (decide (100 < get_height frame /\ 100 < get_width frame)%nat)
      as [[H1 W1]|Hs].
    + destruct (@NpFacts.getitem_in_range (event Image) raw 100 100 Hraw)
        as (p2 & Hp2 & _); [simpl; lia..|].
      rewrite Hp2. cbn [bind ret app].
      rewrite (@NpFacts.getitem_out_of_range (event Image) raw 200 200)
        by (simpl; lia).
      reflexivity.
    + rewrite (@NpFacts.getitem_out_of_range (event Image) raw 100 100)
        by (simpl; lia).
      reflexivity.
  - rewrite (@NpFacts.getitem_out_of_range (event Image) raw 0 0) by (simpl; lia).
    reflexivity.
Qed.

(** X11: two frames that go through the whole Bayer path are written to the
    same file exactly when they carry the same identifier: a repeated
    identifier overwrites, distinct identifiers never collide. *)
Theorem same_file_iff_same_id (f1 f2 d1 d2 : Frame) :
  convert_pixel_format f1 opencv_display_format = Some d1 ->
  convert_pixel_format f2 opencv_display_format = Some d2 ->
  get_buffer_size f1 = (get_width f1 * get_height f1 * 2)%nat ->
  get_buffer_size f2 = (get_width f2 * get_height f2 * 2)%nat ->
  (200 < get_height f1)%nat -> (200 < get_width f1)%nat ->
  (200 < get_height f2)%nat -> (200 < get_width f2)%nat ->
  written_paths (trace (to_tiff f1)) = written_paths (trace (to_tiff f2))
  <-> get_id f1 = get_id f2.
Proof.
  intros C1 C2 S1 S2 H1 W1 H2 W2.
  destruct (TiffFacts.to_tiff_large_frame Image convert_pixel_format cvtColor
              f1 d1 C1 S1 H1 W1) as (? & ? & ? & ? & ? & ? & E1).
  destruct (TiffFacts.to_tiff_large_frame Image convert_pixel_format cvtColor
              f2 d2 C2 S2 H2 W2) as (? & ? & ? & ? & ? & ? & E2).
  unfold to_tiff. rewrite E1, E2. unfold written_paths. simpl. split.
  - intros [= H].
    change (pretty (get_id f1) +:+ ".tiff" = pretty (get_id f2) +:+ ".tiff") in H.
    apply string_app_cancel_r in H. exact (inj pretty _ _ H).
  - intros ->. reflexivity.
Qed.

End Driver.

(** *** Sample frames *)

(** A complete BayerRG12 frame of 201 x 201 zero samples. *)
Definition frame_201 (id : Z) : Frame :=
  mkFrame id Complete BayerRG12 201 201 (repeat Byte.x00 (201 * 201 * 2)).

Lemma frame_201_size (id : Z) :
  get_buffer_size (frame_201 id)
    = (get_width (frame_201 id) * get_height (frame_201 id) * 2)%nat.
Proof. exact (repeat_length Byte.x00 (201 * 201 * 2)). Defined.

Lemma incomplete_frame_only_requeued_witness :
  Pipeline.tiff_call_sample (-1) Pipeline.frame_incomplete
    = ([QueueFrame Pipeline.frame_incomplete], Return tt).
Proof.
  apply (incomplete_frame_only_requeued (list Z) Pipeline.convert_sample
           (fun _ => Some []) Np.flat (-1) Pipeline.frame_incomplete); discriminate.
Defined.



Lemma small_frame_index_error_witness :
  bayer_to_tiff (list Z) Pipeline.convert_sample Np.flat Pipeline.frame_2x2
    = ([], Raise IndexError).
Proof.
  apply (small_frame_index_error (list Z) Pipeline.convert_sample Np.flat
           Pipeline.frame_2x2
           (mkFrame 1 Complete Bgr8 2 2 (get_buffer Pipeline.frame_2x2)));
    [reflexivity | reflexivity | left; simpl; lia].
Defined.

Lemma call_raises_not_requeued_witness :
  queue_frame_count Pipeline.frame_2x2
    (trace (Pipeline.tiff_call_sample (-1) Pipeline.frame_2x2)) = 0%nat.
Proof.
  apply (TiffFacts.call_raises_not_requeued (list Z) Pipeline.convert_sample
           (fun _ => Some []) Np.flat (-1) Pipeline.frame_2x2 IndexError).
  reflexivity.
Defined.


Lemma same_file_iff_same_id_witness :
  written_paths (trace (bayer_to_tiff (list Z) Pipeline.convert_sample Np.flat
                          (frame_201 7)))
    = written_paths (trace (bayer_to_tiff (list Z) Pipeline.convert_sample Np.flat
                              (frame_201 8)))
  <-> 7 = 8.
Proof.
  apply (same_file_iff_same_id (list Z) Pipeline.convert_sample Np.flat
           (frame_201 7) (frame_201 8)
           (mkFrame 7 Complete Bgr8 201 201 (get_buffer (frame_201 7)))
           (mkFrame 8 Complete Bgr8 201 201 (get_buffer (frame_201 8))));
    try reflexivity; try apply frame_201_size; simpl; lia.
Defined.

End TiffMore.

(** ** The ROI script as a whole: log, cleanup, back-pressure *)
Module RoiMore.
Import Roi.

Section Loop.
Variable Array Number : Type.
Variable convert_pixel_format : Frame -> PixelFormat -> option Frame.
Variable as_opencv_image : Frame -> option Array.
Variable as_numpy_ndarray : Frame -> Array.
Variable np_mean np_sum : Array -> Number.

Let process := process_frame Array Number convert_pixel_format as_opencv_image
                 as_numpy_ndarray np_mean np_sum.
Let step := Roi.step Array Number convert_pixel_format as_opencv_image
              as_numpy_ndarray np_mean np_sum.
Let steps := Roi.steps Array Number convert_pixel_format as_opencv_image
               as_numpy_ndarray np_mean np_sum.

Abbreviation in_queue s := (PyQueue.items (display_queue (handler s))).

(** The body either runs through, with one log line and one image, or
    raises before it has printed, logged or shown anything. *)
Lemma process_frame_cases (frame : Frame) :
  (exists tr, process frame = (tr, Return tt) /\
     length (logged tr) = 1%nat /\ length (displayed tr) = 1%nat) \/
  (exists e, process frame = ([], Raise e)).
Proof.
  unfold process, process_frame.
  destruct (bool_decide (get_pixel_format frame = opencv_display_format)).
  - destruct (as_opencv_image frame) as [img|]; [left|right]; eexists;
      [repeat split|reflexivity].
  - destruct (convert_pixel_format frame opencv_display_format) as [d|];
      [|right; eexists; reflexivity].
    destruct (as_opencv_image frame) as [img|]; [left|right]; eexists;
      [repeat split|reflexivity].
Qed.

(** One move, spelled out. *)
Lemma step_cases (s s' : state Array Number) (l : label) :
  step s l = Some s' ->
  match l with
  | Deliver frame =>
      streaming (loc s) = true /\
      exists tr h, Handler_call (handler s) frame = (tr, Return h) /\
        s' = mkState h (loc s) (taken s) (callback_log s ++ tr) (main_log s)
  | WaitKey key =>
      loc s = AtWaitKey /\
      s' = (if key =? ENTER_KEY_CODE
            then mkState (handler s) Stopped (taken s) (callback_log s)
                   (main_log s ++ DestroyWindow :: finally)
            else mkState (handler s) AtGetImage (taken s) (callback_log s)
                   (main_log s))
  | GetImage =>
      loc s = AtGetImage /\
      exists frame rest tr,
        in_queue s = frame :: rest /\
        (process frame = (tr, Return tt) /\
         s' = mkState (mkHandler (PyQueue.mkQueue
                                    (PyQueue.maxsize (display_queue (handler s))) rest))
                AtWaitKey (taken s ++ [frame]) (callback_log s) (main_log s ++ tr)
         \/
         exists e, process frame = (tr, Raise e) /\
           s' = mkState (mkHandler (PyQueue.mkQueue
                                      (PyQueue.maxsize (display_queue (handler s))) rest))
                  (Crashed e) (taken s ++ [frame]) (callback_log s)
                  (main_log s ++ tr ++ finally))
  end.
Proof.
  unfold step, Roi.step. destruct l as [frame|key|].
  - destruct (streaming (loc s)); [|discriminate].
    destruct (Handler_call (handler s) frame) as [tr [h| | |]]; try discriminate.
    intros [= <-]. eauto.
  - destruct (loc s); try discriminate.
    destruct (key =? ENTER_KEY_CODE); intros [= <-]; auto.
  - destruct (loc s); try discriminate.
    unfold Handler_get_image, PyQueue.get.
    destruct (in_queue s) as [|frame rest]; [discriminate|].
    fold (process frame).
    destruct (process frame) as [tr [[]| |e|]] eqn:Hp; try discriminate;
      intros [= <-]; (split; [reflexivity|]); exists frame, rest, tr;
      (split; [reflexivity|]).
    + left. split; [exact Hp | reflexivity].
    + right. exists e. split; [exact Hp | reflexivity].
Qed.

(** A property kept by every move holds along every schedule. *)
Lemma steps_invariant (P : state Array Number -> Prop) :
  (forall s l s', P s -> step s l = Some s' -> P s') ->
  forall ls s s', P s -> steps s ls = Some s' -> P s'.
Proof.
  intros Hstep ls. induction ls as [|l ls IH]; intros s s' Hs Hrun.
  - injection Hrun as <-. exact Hs.
  - apply RoiFacts.steps_cons in Hrun. destruct Hrun as (s1 & H1 & Hrest).
    exact (IH s1 s' (Hstep s l s1 Hs H1) Hrest).
Qed.

(** *** Cleanup *)

(** X16: however the loop ends, by the ENTER key or by an exception in the
    body, the [finally] clause has run: the last two effects of the main
    thread are closing the log file and stopping the stream, and after
    that neither thread moves any more. *)
Theorem cleanup_on_every_exit (ls : list label) (s : state Array Number) :
  steps start ls = Some s -> streaming (loc s) = false ->
  (exists before, main_log s = before ++ [FileClose; StopStreaming]) /\
  (forall l, step s l = None).
Proof.
  intros Hrun Hend. split.
  - assert (Hinv : streaming (loc s) = true \/
                   exists before, main_log s = before ++ [FileClose; StopStreaming]).
    { refine (steps_invariant
                (fun s => streaming (loc s) = true \/
                          exists before, main_log s = before ++ [FileClose; StopStreaming])
                _ ls start s (or_introl eq_refl) Hrun).
      clear dependent s. clear ls. intros s l s' _ Hstep. apply step_cases in Hstep.
      destruct l as [frame|key|].
      - destruct Hstep as (Hs & tr & h & _ & ->). left. exact Hs.
      - destruct Hstep as (_ & ->). destruct (key =? ENTER_KEY_CODE); simpl.
        + right. exists (main_log s ++ [DestroyWindow]).
          rewrite <- app_assoc. reflexivity.
        + left. reflexivity.
      - destruct Hstep as (_ & frame & rest & tr & _ & [(_ & ->)|(e & _ & ->)]); simpl.
        + left. reflexivity.
        + right. exists (main_log s ++ tr). rewrite <- app_assoc. reflexivity. }
    destruct Hinv as [Hs|Hfin]; [congruence | exact Hfin].
  - intros l. unfold step, Roi.step. destruct l; destruct (loc s);
      try reflexivity; discriminate Hend.
Qed.

(** *** The log *)

Definition crashed (l : location) : nat :=
  match l with
  | Crashed _ => 1%nat
  | _ => 0%nat
  end.

(** X17: the log file gets one line, and the window one image, for every frame
    taken from the queue, except for the one frame whose processing raised
    and ended the loop. *)
Theorem one_line_and_image_per_frame (ls : list label) (s : state Array Number) :
  steps start ls = Some s ->
  length (logged (main_log s)) = length (displayed (main_log s)) /\
  length (taken s) = (length (logged (main_log s)) + crashed (loc s))%nat.
Proof.
  intros Hrun.
  refine (steps_invariant
            (fun s => length (logged (main_log s)) = length (displayed (main_log s)) /\
                      length (taken s)
                        = (length (logged (main_log s)) + crashed (loc s))%nat)
            _ ls start s (conj eq_refl eq_refl) Hrun).
  clear dependent s. clear ls. intros s l s' (Heq & Hlen) Hstep. pose proof Hstep as Hstep'.
  apply step_cases in Hstep. destruct l as [frame|key|].
  - destruct Hstep as (_ & tr & h & _ & ->). simpl. tauto.
  - destruct Hstep as (Hloc & ->). rewrite Hloc in Hlen.
    destruct (key =? ENTER_KEY_CODE); simpl; unfold logged, displayed in *;
      rewrite ?omap_app; simpl; rewrite ?app_nil_r; simpl in Hlen; tauto.
  - destruct Hstep as (Hloc & frame & rest & tr & _ & Hcase). rewrite Hloc in Hlen.
    simpl in Hlen. destruct (process_frame_cases frame) as [(tr' & Hp & L & D)|(e' & Hp)];
      destruct Hcase as [(Hp' & ->)|(e & Hp' & ->)]; rewrite Hp in Hp';
      try discriminate; injection Hp' as <-; simpl;
      unfold logged, displayed in *; rewrite ?omap_app, ?length_app; simpl;
      rewrite ?app_nil_r, ?length_app; simpl; lia.
Qed.

(** *** Back-pressure *)

(** X18: once ten frames wait in the queue, the callback cannot finish on a
    complete frame: it stays in [put], and the frame is not handed back to
    the driver until the loop has taken a frame. An incomplete frame still
    passes. *)
Theorem full_queue_blocks_callback (ls : list label) (s : state Array Number)
    (frame : Frame) :
  steps start ls = Some s -> length (in_queue s) = 10%nat ->
  (get_status frame = Complete ->
     Handler_call (handler s) frame = ([PrintAcquired frame], Blocked) /\
     step s (Deliver frame) = None) /\
  (get_status frame <> Complete ->
     Handler_call (handler s) frame = ([QueueFrame frame], Return (handler s))).
Proof.
  intros Hrun Hlen.
  destruct (Pipeline.roi_queue_step Array Number convert_pixel_format as_opencv_image
              as_numpy_ndarray np_mean np_sum ls start s eq_refl) as (Hmax & _);
    [simpl; lia | exact Hrun |].
  assert (Hfull : PyQueue.full (display_queue (handler s)) = true).
  { unfold PyQueue.full, PyQueue.qsize. rewrite Hmax, Hlen. reflexivity. }
  split.
  - intros Hst. pose proof (RoiFacts.call_complete_full _ _ Hst Hfull) as Hcall.
    split; [exact Hcall|]. unfold step, Roi.step. rewrite Hcall.
    destruct (streaming (loc s)); reflexivity.
  - apply RoiFacts.call_not_complete.
Qed.
End Loop.

(** *** A sample run *)

Definition sample_run : list label :=
  [Deliver Pipeline.frame_bgr; WaitKey (-1); Deliver Pipeline.frame_incomplete;
   GetImage; Deliver Pipeline.frame_2x2; WaitKey 13].

Definition ten_deliveries : list label :=
  repeat (Deliver Pipeline.frame_bgr) 10.

Lemma sample_run_state :
  exists s, Pipeline.roi_steps_sample start sample_run = Some s /\ loc s = Stopped.
Proof. eexists. split; reflexivity. Defined.

Lemma cleanup_on_every_exit_witness :
  exists s before, Pipeline.roi_steps_sample start sample_run = Some s /\
    main_log s = before ++ [FileClose; StopStreaming].
Proof.
  destruct sample_run_state as (s & Hrun & Hloc).
  destruct (cleanup_on_every_exit _ _ Pipeline.convert_sample Pipeline.image_sample
              get_buffer Pipeline.mean_sample Pipeline.sum_sample sample_run s Hrun)
    as ((before & Hlog) & _); [rewrite Hloc; reflexivity|].
  exists s, before. split; assumption.
Defined.

Lemma one_line_and_image_per_frame_witness :
  exists s, Pipeline.roi_steps_sample start sample_run = Some s /\
    length (taken s) = (length (logged (main_log s)) + crashed (loc s))%nat.
Proof.
  destruct sample_run_state as (s & Hrun & _). exists s. split; [exact Hrun|].
  apply (one_line_and_image_per_frame _ _ Pipeline.convert_sample Pipeline.image_sample
           get_buffer Pipeline.mean_sample Pipeline.sum_sample sample_run s Hrun).
Defined.

(** The state after ten complete frames were delivered and none taken. *)
Definition full_state : Pipeline.roi_state :=
  Eval vm_compute in
    match Pipeline.roi_steps_sample start ten_deliveries with
    | Some s => s
    | None => start
    end.

Lemma full_state_reached :
  Pipeline.roi_steps_sample start ten_deliveries = Some full_state.
Proof. vm_compute. reflexivity. Defined.

Lemma full_queue_blocks_callback_witness :
  Pipeline.roi_step_sample full_state (Deliver Pipeline.frame_bgr) = None.
Proof.
  destruct (full_queue_blocks_callback _ _ Pipeline.convert_sample
              Pipeline.image_sample get_buffer Pipeline.mean_sample
              Pipeline.sum_sample ten_deliveries full_state Pipeline.frame_bgr
              full_state_reached eq_refl) as (Hblock & _).
  exact (proj2 (Hblock eq_refl)).
Defined.

Lemma roi_display_queue_bounded_fifo_witness :
  exists s, Pipeline.roi_steps_sample start sample_run = Some s /\
    taken s ++ PyQueue.items (display_queue (handler s))
      = [Pipeline.frame_bgr; Pipeline.frame_2x2].
Proof.
  destruct sample_run_state as (s & Hrun & _). exists s. split; [exact Hrun|].
  apply (Pipeline.roi_display_queue_bounded_fifo _ _ Pipeline.convert_sample
           Pipeline.image_sample get_buffer Pipeline.mean_sample Pipeline.sum_sample
           sample_run s Hrun).
Defined.

End RoiMore.

(** ** The acquisition loop of the dark-current script *)
Module DarkMore.
Import DarkCurrent.

(** The values handed to [feat.set], in order, as the integer value of
    the float. *)
Definition exposure_sets (tr : list effect) : list Z :=
  omap (fun e => match e with
                 | Did (FeatureSet _ (VFloat z)) => Some z
                 | _ => None
                 end) tr.

Lemma feature_op_ok (cam : Camera) (o : op) :
  supports cam o = true -> feature_op cam o = ([Did o], Return tt).
Proof. unfold feature_op. intros ->. reflexivity. Qed.

Section Acquisition.
Variable Array Number : Type.
Variable get_frame : nat -> exn + Frame.
Variable as_numpy_ndarray : Frame -> Array.
Variable np_average : Array -> Number.
Variable cam : Camera.

Let acquire := DarkCurrent.acquire Array Number get_frame as_numpy_ndarray np_average cam.
Let main_acquire :=
  DarkCurrent.main_acquire Array Number get_frame as_numpy_ndarray np_average cam.

(** The camera has the exposure feature and takes every value of the
    list. *)
Definition exposure_ok (exps : list Z) : Prop :=
  supports cam (GetFeatureByName "ExposureTime") = true /\
  supports cam (FeatureGet "ExposureTime") = true /\
  forall exp, exp ∈ exps ->
    supports cam (FeatureSet "ExposureTime" (VFloat (exp * 1000))) = true.

Lemma exposure_ok_cons (exp : Z) (exps : list Z) :
  exposure_ok (exp :: exps) ->
  supports cam (FeatureSet "ExposureTime" (VFloat (exp * 1000))) = true /\
  exposure_ok exps.
Proof.
  intros (H1 & H2 & H3). split; [apply H3; left|].
  split; [assumption|]. split; [assumption|]. intros e He. apply H3. right. exact He.
Qed.

(** One pass through the loop body whose acquisition succeeds. *)
Lemma acquire_step (exp : Z) (rest : list Z) (i : nat) (acc : list Number) (f : Frame) :
  exposure_ok (exp :: rest) -> get_frame (S i) = inr f ->
  acquire (exp :: rest) i acc =
    ([Did (GetFeatureByName "ExposureTime");
      Did (FeatureSet "ExposureTime" (VFloat (exp * 1000)));
      Did (FeatureGet "ExposureTime"); Print "Got Frame"]
       ++ trace (acquire rest (S i) (acc ++ [np_average (as_numpy_ndarray f)])),
     result (acquire rest (S i) (acc ++ [np_average (as_numpy_ndarray f)]))).
Proof.
  intros Hok Hf. pose proof Hok as (H1 & H2 & _).
  destruct (exposure_ok_cons _ _ Hok) as (H3 & _).
  unfold acquire. cbn [DarkCurrent.acquire].
  rewrite (feature_op_ok cam _ H1), (feature_op_ok cam _ H2), (feature_op_ok cam _ H3).
  rewrite Hf. cbn [bind ret emit app].
  destruct (DarkCurrent.acquire _ _ _ _ _ cam rest (S i) _) as [tr r]. reflexivity.
Qed.

(** One pass whose acquisition raises. *)
Lemma acquire_step_raises (exp : Z) (rest : list Z) (i : nat) (acc : list Number)
    (e : exn) :
  exposure_ok (exp :: rest) -> get_frame (S i) = inl e ->
  acquire (exp :: rest) i acc =
    ([Did (GetFeatureByName "ExposureTime");
      Did (FeatureSet "ExposureTime" (VFloat (exp * 1000)))], Raise e).
Proof.
  intros Hok Hf. pose proof Hok as (H1 & _).
  destruct (exposure_ok_cons _ _ Hok) as (H3 & _).
  unfold acquire. cbn [DarkCurrent.acquire].
  rewrite (feature_op_ok cam _ H1), (feature_op_ok cam _ H3), Hf. reflexivity.
Qed.

Lemma acquire_all (exps : list Z) (i : nat) (acc : list Number) :
  exposure_ok exps ->
  (forall k, (i < k <= i + length exps)%nat -> exists f, get_frame k = inr f) ->
  exists avgs,
    result (acquire exps i acc) = Return ((i + length exps)%nat, acc ++ avgs) /\
    length avgs = length exps /\
    (forall j f, get_frame (S (i + j)) = inr f -> (j < length exps)%nat ->
       avgs !! j = Some (np_average (as_numpy_ndarray f))) /\
    exposure_sets (trace (acquire exps i acc)) = map (fun exp => exp * 1000) exps.
Proof.
  revert i acc. induction exps as [|exp rest IH]; intros i acc Hok Hframes.
  - exists []. simpl. rewrite app_nil_r, Nat.add_0_r.
    split; [reflexivity|]. split; [reflexivity|]. split; [|reflexivity].
    intros j f _ Hj. simpl in Hj. lia.
  - destruct (Hframes (S i)) as (f & Hf); [simpl; lia|].
    rewrite (acquire_step exp rest i acc f Hok Hf).
    destruct (IH (S i) (acc ++ [np_average (as_numpy_ndarray f)]))
      as (avgs & Hres & Hlen & Hnth & Hsets).
    + apply (exposure_ok_cons exp rest Hok).
    + intros k Hk. apply Hframes. simpl. lia.
    + exists (np_average (as_numpy_ndarray f) :: avgs).
      unfold result, trace in *. cbn [fst snd]. rewrite Hres.
      split; [|split; [|split]].
      * rewrite <- app_assoc. simpl. do 2 f_equal. lia.
      * simpl. rewrite Hlen. reflexivity.
      * intros [|j] g Hg Hj.
        -- rewrite Nat.add_0_r, Hf in Hg. injection Hg as <-. reflexivity.
        -- simpl. apply Hnth; [|simpl in Hj; lia].
           rewrite <- Hg. f_equal. lia.
      * unfold exposure_sets in *. rewrite omap_app, Hsets. reflexivity.
Qed.

Lemma acquire_until_failure
    (done : list Z) (exp : Z) (rest : list Z) (i : nat) (acc : list Number) (e : exn) :
  exposure_ok (done ++ exp :: rest) ->
  (forall k, (i < k <= i + length done)%nat -> exists f, get_frame k = inr f) ->
  get_frame (S (i + length done)) = inl e ->
  result (acquire (done ++ exp :: rest) i acc) = Raise e /\
  exposure_sets (trace (acquire (done ++ exp :: rest) i acc))
    = map (fun exp => exp * 1000) (done ++ [exp]).
Proof.
  revert i acc. induction done as [|d done IH]; intros i acc Hok Hframes Hfail.
  - simpl in *. rewrite Nat.add_0_r in Hfail.
    rewrite (acquire_step_raises exp rest i acc e Hok Hfail). split; reflexivity.
  - destruct (Hframes (S i)) as (f & Hf); [simpl; lia|].
    change ((d :: done) ++ exp :: rest) with (d :: (done ++ exp :: rest)) in *.
    rewrite (acquire_step d _ i acc f Hok Hf).
    destruct (IH (S i) (acc ++ [np_average (as_numpy_ndarray f)])) as (Hres & Hsets).
    + apply (exposure_ok_cons d _ Hok).
    + intros k Hk. apply Hframes. simpl. lia.
    + rewrite <- Hfail. f_equal. simpl. lia.
    + unfold result, trace in *. cbn [fst snd]. split; [exact Hres|].
      unfold exposure_sets in *. rewrite omap_app, Hsets. reflexivity.
Qed.

(** X20: if the camera takes all 41 exposure values and every frame arrives,
    the loop sets the exposures of [expArray] in order, each multiplied by
    1000, and [polyfit] receives 16 exposures and 16 averages: those of
    the steps 26 to 41. *)
Theorem run_fits_last_16_points :
  exposure_ok expArray ->
  (forall k, (0 < k <= 41)%nat -> exists f, get_frame k = inr f) ->
  exists y,
    result main_acquire = Return (from_25 expArray, y) /\
    length (from_25 expArray) = 16%nat /\ length y = 16%nat /\
    (forall j f, get_frame (26 + j) = inr f -> (j < 16)%nat ->
       y !! j = Some (np_average (as_numpy_ndarray f))) /\
    exposure_sets (trace main_acquire) = map (fun exp => exp * 1000) expArray.
Proof.
  intros Hok Hframes.
  destruct (acquire_all expArray 0 [] Hok) as (avgs & Hres & Hlen & Hnth & Hsets);
    [intros k Hk; apply Hframes; simpl in Hk; lia|].
  exists (from_25 avgs). unfold main_acquire, DarkCurrent.main_acquire.
  fold (acquire expArray 0 []).
  destruct (acquire expArray 0 []) as [tr r]. unfold result, trace in *.
  cbn [fst snd] in *. subst r. cbn [bind ret]. rewrite app_nil_r. cbn [fst snd].
  split; [reflexivity|]. split; [reflexivity|]. split; [|split].
  - unfold from_25. rewrite length_drop, Hlen. reflexivity.
  - intros j f Hf Hj. unfold from_25. rewrite lookup_drop.
    apply Hnth; [exact Hf | change (length expArray) with 41%nat; lia].
  - exact Hsets.
Qed.

(** X21: if the acquisition of step [n + 1] raises while everything before went
    well, [main] ends with that exception: exactly the first [n + 1]
    exposures have been set and no fit is made. *)
Theorem failed_acquisition_ends_run (n : nat) (e : exn) :
  exposure_ok expArray -> (n < 41)%nat ->
  (forall k, (0 < k <= n)%nat -> exists f, get_frame k = inr f) ->
  get_frame (S n) = inl e ->
  result main_acquire = Raise e /\
  exposure_sets (trace main_acquire)
    = map (fun exp => exp * 1000) (take (S n) expArray).
Proof.
  intros Hok Hn Hframes Hfail.
  destruct (lookup_lt_is_Some_2 expArray n) as (exp & Hexp);
    [change (length expArray) with 41%nat; lia|].
  pose proof (take_drop_middle expArray n exp Hexp) as Hsplit.
  assert (Hlen : length (take n expArray) = n).
  { rewrite length_take. change (length expArray) with 41%nat. lia. }
  destruct (acquire_until_failure (take n expArray) exp (drop (S n) expArray) 0 [] e)
    as (Hres & Hsets).
  - rewrite Hsplit. exact Hok.
  - rewrite Hlen. exact Hframes.
  - rewrite Hlen. exact Hfail.
  - rewrite Hsplit in Hres, Hsets.
    unfold main_acquire, DarkCurrent.main_acquire. fold (acquire expArray 0 []).
    destruct (acquire expArray 0 []) as [tr r]. unfold result, trace in *.
    cbn [fst snd] in *. subst r. cbn [bind fst snd]. split; [reflexivity|].
    rewrite Hsets. f_equal. rewrite (take_S_r expArray n exp Hexp). reflexivity.
Qed.
End Acquisition.

(** *** Sample runs *)

Definition cam_all : Camera := mkCamera "DEV_4" [Mono12] (fun _ => true) 0.

Definition frames_ok (k : nat) : exn + Frame := inr Pipeline.frame_bgr.
Definition frames_fail_at_3 (k : nat) : exn + Frame :=
  if (k =? 3)%nat then inl VmbCameraError else inr Pipeline.frame_bgr.

Lemma cam_all_exposure_ok : exposure_ok cam_all expArray.
Proof. repeat split. Defined.

Lemma run_fits_last_16_points_witness :
  exists y,
    result (main_acquire (list Byte.byte) Z frames_ok get_buffer Pipeline.sum_sample
              cam_all) = Return (from_25 expArray, y) /\
    length y = 16%nat.
Proof.
  destruct (run_fits_last_16_points (list Byte.byte) Z frames_ok get_buffer
              Pipeline.sum_sample cam_all cam_all_exposure_ok)
    as (y & Hres & _ & Hlen & _).
  - intros k _. exists Pipeline.frame_bgr. reflexivity.
  - exists y. split; assumption.
Defined.

Lemma failed_acquisition_ends_run_witness :
  result (main_acquire (list Byte.byte) Z frames_fail_at_3 get_buffer
            Pipeline.sum_sample cam_all) = Raise VmbCameraError /\
  exposure_sets (trace (main_acquire (list Byte.byte) Z frames_fail_at_3 get_buffer
                          Pipeline.sum_sample cam_all)) = [1000; 10000; 20000].
Proof.
  apply (failed_acquisition_ends_run (list Byte.byte) Z frames_fail_at_3 get_buffer
           Pipeline.sum_sample cam_all 2 VmbCameraError cam_all_exposure_ok).
  - lia.
  - intros k Hk. exists Pipeline.frame_bgr.
    assert (k = 1 \/ k = 2)%nat as [-> | ->] by lia; reflexivity.
  - reflexivity.
Defined.

End DarkMore.
